(** * Lottery bot store (lottery_bot/storage.py): a shallow embedding

    The Python [StorageManager] keeps one JSON-shaped dictionary [_data]
    behind an [asyncio.Lock] and rewrites the whole file after every
    mutation.  Every public method runs entirely under the lock, so its
    effect on [_data] is a function (or, for the random choices, a relation)
    from the old state to the new one; that is what is modelled here.  The
    write-through to disk is not modelled.

    Modelling conventions.
    - The [pending], [approved] and [rejected] dictionaries are
      [gmap string purchase] keyed by the purchase id.
    - [users] and [user_tickets] are keyed in Python by [str(user_id)];
      [str] is injective on [int], so they are [gmap Z _] keyed by the id.
    - A key that a Python dictionary may lack is an [option] field.
    - [_now().isoformat()] is an explicit [now_iso] argument.
    - [uuid4().hex] is an explicit fresh id.
    - [random.sample] is an explicit list of the positions it draws. *)

From Stdlib Require Import Ascii String ZArith Lia Sorting.Sorted SpecFloat.
From stdpp Require Import base gmap strings list fin_maps sorting.

Open Scope Z_scope.
Set Warnings "-register-all".

(* ------------------------------------------------------------------ *)
(** ** Records *)

(** [status] key of a purchase dictionary. *)
Inductive status := Pending | Approved | Rejected | Cancelled.

(** [purchase["admin_message"]], set by [set_admin_message]. *)
Record admin_message := { am_chat_id : Z; am_message_id : Z }.

(** A purchase dictionary as built by [create_pending_purchase]; the keys
    added later ([tickets], [resolved_at], [cancelled_at], [admin_message])
    are optional. *)
Record purchase := {
  purchase_id : string;
  p_user_id : Z;
  p_username : option string;
  p_full_name : option string;
  p_phone_number : option string;
  quantity : Z;
  ticket_price : Z;
  amount : Z;
  receipt_file_id : string;
  receipt_type : string;
  created_at : string;
  p_status : status;
  p_admin_message : option admin_message;
  p_tickets : option (list Z);
  resolved_at : option string;
  cancelled_at : option string
}.

(** One element of [user_record["history"]]; the entries written by
    [cancel_approved_purchase] carry a ["status"] key, those written by
    [approve_purchase] do not. *)
Record history_entry := {
  h_purchase_id : string;
  h_tickets : list Z;
  h_amount : Z;
  h_quantity : Z;
  h_resolved_at : string;
  h_status : option status
}.

(** A [users] record. *)
Record user_record := {
  user_id : Z;
  username : option string;
  full_name : option string;
  phone_number : option string;
  first_seen : string;
  last_active : string;
  purchases : Z;
  total_tickets : Z;
  total_spent : Z;
  history : list history_entry
}.

(** [meta["start_message"]]. *)
Record start_message := {
  sm_text : string;
  sm_media : option (list (string * string))
}.

(** [_data["meta"]]. *)
Record meta := {
  m_start_message : start_message;
  m_subscription_message : string;
  m_manager_contact : string;
  m_game_info_message : string;
  m_card_number : string
}.

(** One element of [subscriptions["channels"]]. *)
Record channel := { ch_id : string; ch_title : string; ch_link : option string }.

(** [_data["subscriptions"]]. *)
Record subscriptions := { sub_enabled : bool; sub_channels : list channel }.

(** The whole [_data] dictionary. *)
Record store := {
  available_tickets : list Z;
  pending : gmap string purchase;
  approved : gmap string purchase;
  rejected : gmap string purchase;
  user_tickets : gmap Z (list Z);
  users : gmap Z user_record;
  s_meta : meta;
  s_subscriptions : subscriptions
}.

(** Python truthiness of an optional string ([if phone_number:]). *)
Definition truthy (o : option string) : bool :=
  match o with Some s => negb (String.eqb s "") | None => false end.

(** [list(range(a, b))]. *)
Definition py_range (a b : Z) : list Z :=
  map (fun i => a + Z.of_nat i) (seq 0 (Z.to_nat (b - a))).

(* ------------------------------------------------------------------ *)
(** ** Field updates *)

Definition set_available (l : list Z) (s : store) : store :=
  {| available_tickets := l; pending := pending s; approved := approved s;
     rejected := rejected s; user_tickets := user_tickets s; users := users s;
     s_meta := s_meta s; s_subscriptions := s_subscriptions s |}.

Definition set_pending (m : gmap string purchase) (s : store) : store :=
  {| available_tickets := available_tickets s; pending := m; approved := approved s;
     rejected := rejected s; user_tickets := user_tickets s; users := users s;
     s_meta := s_meta s; s_subscriptions := s_subscriptions s |}.

Definition set_approved (m : gmap string purchase) (s : store) : store :=
  {| available_tickets := available_tickets s; pending := pending s; approved := m;
     rejected := rejected s; user_tickets := user_tickets s; users := users s;
     s_meta := s_meta s; s_subscriptions := s_subscriptions s |}.

Definition set_rejected (m : gmap string purchase) (s : store) : store :=
  {| available_tickets := available_tickets s; pending := pending s; approved := approved s;
     rejected := m; user_tickets := user_tickets s; users := users s;
     s_meta := s_meta s; s_subscriptions := s_subscriptions s |}.

Definition set_user_tickets (m : gmap Z (list Z)) (s : store) : store :=
  {| available_tickets := available_tickets s; pending := pending s; approved := approved s;
     rejected := rejected s; user_tickets := m; users := users s;
     s_meta := s_meta s; s_subscriptions := s_subscriptions s |}.

Definition set_users (m : gmap Z user_record) (s : store) : store :=
  {| available_tickets := available_tickets s; pending := pending s; approved := approved s;
     rejected := rejected s; user_tickets := user_tickets s; users := m;
     s_meta := s_meta s; s_subscriptions := s_subscriptions s |}.

Definition set_meta (mt : meta) (s : store) : store :=
  {| available_tickets := available_tickets s; pending := pending s; approved := approved s;
     rejected := rejected s; user_tickets := user_tickets s; users := users s;
     s_meta := mt; s_subscriptions := s_subscriptions s |}.

(** [purchase.update({"status": st, "tickets": ts, "resolved_at": now})]
    and its siblings. *)
Definition p_resolve (st : status) (ts : option (list Z)) (now_iso : string)
    (p : purchase) : purchase :=
  {| purchase_id := purchase_id p; p_user_id := p_user_id p; p_username := p_username p;
     p_full_name := p_full_name p; p_phone_number := p_phone_number p;
     quantity := quantity p; ticket_price := ticket_price p; amount := amount p;
     receipt_file_id := receipt_file_id p; receipt_type := receipt_type p;
     created_at := created_at p; p_status := st; p_admin_message := p_admin_message p;
     p_tickets := ts; resolved_at := Some now_iso; cancelled_at := cancelled_at p |}.

Definition p_cancel (now_iso : string) (p : purchase) : purchase :=
  {| purchase_id := purchase_id p; p_user_id := p_user_id p; p_username := p_username p;
     p_full_name := p_full_name p; p_phone_number := p_phone_number p;
     quantity := quantity p; ticket_price := ticket_price p; amount := amount p;
     receipt_file_id := receipt_file_id p; receipt_type := receipt_type p;
     created_at := created_at p; p_status := Cancelled;
     p_admin_message := p_admin_message p; p_tickets := p_tickets p;
     resolved_at := resolved_at p; cancelled_at := Some now_iso |}.

(* ------------------------------------------------------------------ *)
(** ** Initial state: [_default_payload] followed by [_ensure_defaults] *)

Definition DEFAULT_START_TEMPLATE : string :=
  "Lotareya botiga xush kelibsiz!

🎁 Sovrin: {prize}
🎟 Jami chipta: {total_tickets}
✅ Qolgan chipta: {remaining_tickets}
💸 Chipta narxi: {ticket_price} so'm

Quyidagi tugmalar orqali kerakli bo'limni tanlang.".

Definition DEFAULT_SUBSCRIPTION_MESSAGE : string :=
  "Botdan to'liq foydalanish uchun quyidagi kanallarga obuna bo'ling:
{channels}

Obuna bo'lgach, '✅ Tekshirish' tugmasini bosing.".

Definition DEFAULT_GAME_INFO_MESSAGE : string :=
  "ℹ️ Lotareya shartlari:
• Sovrin: {prize}
• Jami chipta: {total_tickets} ta
• Sotilgan chiptalar: {sold_tickets} ta
• Qolgan chiptalar: {remaining_tickets} ta
• Chipta narxi: {ticket_price} so'm

To'lovingiz admin tomonidan tekshirilgach, chipta raqamlari yuboriladi.".

(** [StorageManager(path, total_tickets, default_card_number=...)] on a
    path that does not exist yet. *)
Definition initial_store (total_tickets_cfg : Z) (default_card_number : option string) : store :=
  {| available_tickets := py_range 1 (total_tickets_cfg + 1);
     pending := ∅; approved := ∅; rejected := ∅; user_tickets := ∅; users := ∅;
     s_meta := {| m_start_message := {| sm_text := DEFAULT_START_TEMPLATE; sm_media := None |};
                  m_subscription_message := DEFAULT_SUBSCRIPTION_MESSAGE;
                  m_manager_contact := "@menejer_1w";
                  m_game_info_message := DEFAULT_GAME_INFO_MESSAGE;
                  m_card_number := default "" default_card_number |};
     s_subscriptions := {| sub_enabled := false; sub_channels := [] |} |}.

(* ------------------------------------------------------------------ *)
(** ** [register_user] *)

(** The record literal of the [if not record:] branch.  A stored record is
    never the empty dictionary, so [not record] means "no record". *)
Definition new_user (uid : Z) (uname fname phone : option string) (now_iso : string) : user_record :=
  {| user_id := uid; username := uname; full_name := fname; phone_number := phone;
     first_seen := now_iso; last_active := now_iso;
     purchases := 0; total_tickets := 0; total_spent := 0; history := [] |}.

Definition register_user (now_iso : string) (uid : Z) (uname fname phone : option string)
    (s : store) : store :=
  match users s !! uid with
  | None => set_users (<[uid := new_user uid uname fname phone now_iso]> (users s)) s
  | Some r =>
      let r' :=
        {| user_id := user_id r;
           username := (match uname with Some _ => uname | None => username r end);
           full_name := (if truthy fname then fname else full_name r);
           phone_number := (if truthy phone then phone else phone_number r);
           first_seen := first_seen r; last_active := now_iso;
           purchases := purchases r; total_tickets := total_tickets r;
           total_spent := total_spent r; history := history r |} in
      set_users (<[uid := r']> (users s)) s
  end.

(* ------------------------------------------------------------------ *)
(** ** [create_pending_purchase] *)

Definition new_purchase (pid : string) (now_iso : string) (uid : Z)
    (uname fname phone : option string) (qty price : Z) (receipt_id receipt_kind : string)
    : purchase :=
  {| purchase_id := pid; p_user_id := uid; p_username := uname; p_full_name := fname;
     p_phone_number := phone; quantity := qty; ticket_price := price; amount := price * qty;
     receipt_file_id := receipt_id; receipt_type := receipt_kind; created_at := now_iso;
     p_status := Pending; p_admin_message := None; p_tickets := None;
     resolved_at := None; cancelled_at := None |}.

(** [pid] stands for [uuid4().hex]. *)
Definition create_pending_purchase (pid : string) (now_iso : string) (uid : Z)
    (uname fname phone : option string) (qty price : Z) (receipt_id receipt_kind : string)
    (s : store) : string * store :=
  (pid, set_pending (<[pid := new_purchase pid now_iso uid uname fname phone qty price
                                 receipt_id receipt_kind]> (pending s)) s).

(* ------------------------------------------------------------------ *)
(** ** [approve_purchase] *)

(** [list.remove(x)]: drop the first occurrence, [ValueError] ([None]) if
    there is none. *)
Fixpoint py_remove (x : Z) (l : list Z) : option (list Z) :=
  match l with
  | [] => None
  | y :: l' => if Z.eqb x y then Some l' else option_map (cons y) (py_remove x l')
  end.

(** [for ticket in tickets: available.remove(ticket)] on the list in
    place: [inr] the final list, or [inl] the partly updated list when a
    [remove] raises. *)
Fixpoint remove_tickets (ts : list Z) (av : list Z) : list Z + list Z :=
  match ts with
  | [] => inr av
  | t :: ts' =>
      match py_remove t av with
      | None => inl av
      | Some av' => remove_tickets ts' av'
      end
  end.

(** The positions drawn by [random.sample(population, k)] for
    [0 <= k <= len(population)]: [k] distinct positions in range. *)
Definition sample_ok (n : nat) (k : Z) (idxs : list nat) : Prop :=
  NoDup idxs /\ Z.of_nat (length idxs) = k /\ Forall (fun i => (i < n)%nat) idxs.

(** The value returned by [random.sample] for those positions. *)
Definition sample_at (population : list Z) (idxs : list nat) : list Z :=
  map (fun i => nth i population 0) idxs.

Inductive approve_result :=
  | ApproveOk (tickets : list Z) (p : purchase)  (** [return tickets, purchase] *)
  | ApproveEmpty                                 (** [return [], {}] *)
  | ApproveRaise.                                (** a [ValueError] escapes *)

(** The [setdefault] default of the [users] bucket. *)
Definition user_from_purchase (p : purchase) (now_iso : string) : user_record :=
  new_user (p_user_id p) (p_username p) (p_full_name p) (p_phone_number p) now_iso.

Definition approve_user_update (p : purchase) (tickets : list Z) (now_iso : string)
    (r : user_record) : user_record :=
  {| user_id := user_id r; username := username r; full_name := full_name r;
     phone_number := (if truthy (p_phone_number p) then p_phone_number p else phone_number r);
     first_seen := first_seen r; last_active := now_iso;
     purchases := purchases r + 1;
     total_tickets := total_tickets r + quantity p;
     total_spent := total_spent r + amount p;
     history := history r ++
       [{| h_purchase_id := purchase_id p; h_tickets := tickets; h_amount := amount p;
           h_quantity := quantity p; h_resolved_at := now_iso; h_status := None |}] |}.

(** [approve_purchase(purchase_id)].  [idxs] are the positions that
    [random.sample(available, quantity)] draws; they are only read when
    [0 <= quantity <= len(available)], where [random.sample] does not raise. *)
Definition approve_purchase (now_iso : string) (idxs : list nat) (pid : string)
    (s : store) : approve_result * store :=
  match pending s !! pid with
  | None => (ApproveEmpty, s)
  | Some p =>
      (* [self._data["pending"].pop(purchase_id, None)] *)
      let s1 := set_pending (delete pid (pending s)) s in
      let available := available_tickets s in
      if Z.of_nat (length available) <? quantity p then
        (* shortage: put it back, return [[], {}] *)
        (ApproveEmpty, set_pending (<[pid := p]> (pending s1)) s1)
      else if quantity p <? 0 then
        (* [random.sample] raises [ValueError] on a negative size *)
        (ApproveRaise, s1)
      else
        let tickets := sample_at available idxs in
        match remove_tickets tickets available with
        | inl partial => (ApproveRaise, set_available partial s1)
        | inr available' =>
            let uid := p_user_id p in
            let bucket := default [] (user_tickets s1 !! uid) in
            let p' := p_resolve Approved (Some tickets) now_iso p in
            let r := default (user_from_purchase p now_iso) (users s1 !! uid) in
            (ApproveOk tickets p',
             {| available_tickets := available';
                pending := pending s1;
                approved := <[pid := p']> (approved s1);
                rejected := rejected s1;
                user_tickets := <[uid := bucket ++ tickets]> (user_tickets s1);
                users := <[uid := approve_user_update p tickets now_iso r]> (users s1);
                s_meta := s_meta s1; s_subscriptions := s_subscriptions s1 |})
        end
  end.

(* ------------------------------------------------------------------ *)
(** ** [reject_purchase] *)

Definition touch_user (now_iso : string) (r : user_record) : user_record :=
  {| user_id := user_id r; username := username r; full_name := full_name r;
     phone_number := phone_number r; first_seen := first_seen r; last_active := now_iso;
     purchases := purchases r; total_tickets := total_tickets r;
     total_spent := total_spent r; history := history r |}.

(** [None] is the empty dictionary [{}]. *)
Definition reject_purchase (now_iso : string) (pid : string) (s : store)
    : option purchase * store :=
  match pending s !! pid with
  | None => (None, s)
  | Some p =>
      let p' := p_resolve Rejected (p_tickets p) now_iso p in
      let uid := p_user_id p in
      let us := match users s !! uid with
                | Some r => <[uid := touch_user now_iso r]> (users s)
                | None => users s
                end in
      (Some p', set_users us (set_rejected (<[pid := p']> (rejected s))
                                (set_pending (delete pid (pending s)) s)))
  end.

(* ------------------------------------------------------------------ *)
(** ** [cancel_approved_purchase] *)

(** Insert into a strictly increasing list, dropping a duplicate. *)
Fixpoint insert_uniq (x : Z) (l : list Z) : list Z :=
  match l with
  | [] => [x]
  | y :: l' => if x <? y then x :: l else if x =? y then l else y :: insert_uniq x l'
  end.

(** [sorted(set(l))]: the strictly increasing list of the elements of [l]
    (there is exactly one such list). *)
Definition sorted_set (l : list Z) : list Z := fold_right insert_uniq [] l.

Definition cancel_user_update (p : purchase) (tickets : list Z) (now_iso : string)
    (r : user_record) : user_record :=
  {| user_id := user_id r; username := username r; full_name := full_name r;
     phone_number := phone_number r; first_seen := first_seen r; last_active := now_iso;
     purchases := Z.max 0 (purchases r - 1);
     total_tickets := Z.max 0 (total_tickets r - Z.of_nat (length tickets));
     total_spent := Z.max 0 (total_spent r - amount p);
     history := history r ++
       [{| h_purchase_id := purchase_id p; h_tickets := tickets; h_amount := amount p;
           h_quantity := quantity p; h_resolved_at := now_iso;
           h_status := Some Cancelled |}] |}.

(** [[t for t in user_bucket if t not in tickets]] *)
Definition drop_tickets (tickets bucket : list Z) : list Z :=
  filter (fun t => negb (existsb (Z.eqb t) tickets)) bucket.

(** [None] is the empty dictionary [{}].  The several [_now()] calls of
    one invocation are the single [now_iso]. *)
Definition cancel_approved_purchase (now_iso : string) (pid : string) (s : store)
    : option purchase * store :=
  match approved s !! pid with
  | None => (None, s)
  | Some p =>
      (* [purchase.get("tickets", []) or []] *)
      let tickets := default [] (p_tickets p) in
      let uid := p_user_id p in
      let ut := match user_tickets s !! uid with
                | Some ((_ :: _) as bucket) =>
                    <[uid := drop_tickets tickets bucket]> (user_tickets s)
                | _ => user_tickets s
                end in
      let us := match users s !! uid with
                | Some r => <[uid := cancel_user_update p tickets now_iso r]> (users s)
                | None => users s
                end in
      (Some (p_cancel now_iso p),
       {| available_tickets := sorted_set (available_tickets s ++ tickets);
          pending := pending s;
          approved := delete pid (approved s);
          rejected := rejected s;
          user_tickets := ut;
          users := us;
          s_meta := s_meta s; s_subscriptions := s_subscriptions s |})
  end.

(* ------------------------------------------------------------------ *)
(** ** [get_detailed_stats] *)

(** [sum(f(v) for v in m.values())]. *)
Definition msum {K A} `{Countable K} (f : A -> Z) (m : gmap K A) : Z :=
  foldr (fun kv acc => f kv.2 + acc) 0 (map_to_list m).

(** The integer fields of the [get_detailed_stats] result.  The fields that
    read the clock ([active_users_24h], [new_users_24h]), the float averages
    and the [top_users] leaderboard are not modelled. *)
Record detailed_stats := {
  st_total_tickets : Z;
  st_remaining_tickets : Z;
  st_tickets_sold : Z;
  st_total_revenue : Z;
  st_pending_amount : Z;
  st_pending_count : Z;
  st_approved_count : Z;
  st_rejected_count : Z;
  st_total_users : Z;
  st_total_purchases : Z
}.

Definition get_detailed_stats (total_tickets_cfg : Z) (s : store) : detailed_stats :=
  {| st_total_tickets := total_tickets_cfg;
     st_remaining_tickets := Z.of_nat (length (available_tickets s));
     st_tickets_sold := msum total_tickets (users s);
     st_total_revenue := msum total_spent (users s);
     st_pending_amount := msum amount (pending s);
     st_pending_count := Z.of_nat (size (pending s));
     st_approved_count := Z.of_nat (size (approved s));
     st_rejected_count := Z.of_nat (size (rejected s));
     st_total_users := Z.of_nat (size (users s));
     st_total_purchases := msum purchases (users s) |}.

(* ------------------------------------------------------------------ *)
(** ** Runs of the store *)

(** One public operation of the store.  [create_ok qty price] is what the
    caller of [create_pending_purchase] guarantees about its arguments; the
    id of a new purchase is a fresh [uuid4().hex]; [random.sample] draws
    distinct positions. *)
Inductive step (create_ok : Z -> Z -> Prop) : store -> store -> Prop :=
  | step_register now_iso uid uname fname phone s :
      step create_ok s (register_user now_iso uid uname fname phone s)
  | step_create pid now_iso uid uname fname phone qty price rid rkind s :
      pending s !! pid = None -> approved s !! pid = None -> rejected s !! pid = None ->
      create_ok qty price ->
      step create_ok s
        (create_pending_purchase pid now_iso uid uname fname phone qty price rid rkind s).2
  | step_approve now_iso idxs pid s :
      (forall p, pending s !! pid = Some p ->
         0 <= quantity p <= Z.of_nat (length (available_tickets s)) ->
         sample_ok (length (available_tickets s)) (quantity p) idxs) ->
      step create_ok s (approve_purchase now_iso idxs pid s).2
  | step_reject now_iso pid s :
      step create_ok s (reject_purchase now_iso pid s).2
  | step_cancel now_iso pid s :
      step create_ok s (cancel_approved_purchase now_iso pid s).2.

Definition reachable (create_ok : Z -> Z -> Prop) (total_tickets_cfg : Z)
    (card : option string) (s : store) : Prop :=
  rtc (step create_ok) (initial_store total_tickets_cfg card) s.

(** The ticket numbers held by the approved purchases, one list after the
    other. *)
Definition approved_tickets (m : gmap string purchase) : list Z :=
  concat (map (fun kv => default [] (p_tickets kv.2)) (map_to_list m)).

(* ------------------------------------------------------------------ *)
(** ** The scenario of the spec: pool of 3, price 100 *)

Module Scenario.
Definition s0 := initial_store 3 None.
Definition s1 := (create_pending_purchase "A" "t1" 7 None (Some "Ann") None 2 100 "f" "photo" s0).2.
Definition s2 := (create_pending_purchase "B" "t2" 8 None (Some "Bob") None 2 100 "g" "photo" s1).2.
Definition r3 := approve_purchase "t3" [2%nat; 0%nat] "A" s2.
Definition s3 := r3.2.
Definition r4 := approve_purchase "t4" [] "B" s3.
Definition s4 := r4.2.
Definition s5 := (reject_purchase "t5" "B" s4).2.
Definition r6 := cancel_approved_purchase "t6" "A" s5.
Definition s6 := r6.2.
End Scenario.

(* ------------------------------------------------------------------ *)
(** ** Reset and restore *)

(** Modelled from the spec: [StorageManager.reset_all_data], which
    [admin_settings_clear_confirm] calls but storage.py does not define.
    The spec: "clears pool back to full range, and empties
    pending/approved/rejected/user-ticket/user collections"; "Configuration
    (templates, card number, subscription settings) is untouched by this
    call". *)
Definition reset_all_data (total_tickets_cfg : Z) (s : store) : store :=
  {| available_tickets := py_range 1 (total_tickets_cfg + 1);
     pending := ∅; approved := ∅; rejected := ∅; user_tickets := ∅; users := ∅;
     s_meta := s_meta s; s_subscriptions := s_subscriptions s |}.

(** A JSON document, the shape of [_data] and of a backup file.  A number
    is an integer or a float as [json.load] gives them; a float (NaN and
    the infinities included) is a binary floating-point value. *)
Inductive json :=
  | JNull
  | JBool (b : bool)
  | JInt (z : Z)
  | JFloat (f : spec_float)
  | JStr (s : string)
  | JArr (items : list json)
  | JObj (fields : list (string * json)).

Definition json_has_key (k : string) (j : json) : bool :=
  match j with
  | JObj fs => existsb (fun kv => String.eqb kv.1 k) fs
  | _ => false
  end.

Definition restore_required_keys : list string :=
  ["available_tickets"; "users"; "approved"; "pending"].

Inductive restore_result :=
  | RestoreOk
  | RestoreFormatError (missing : list string).

(** Modelled from the spec: [StorageManager.restore_from_backup(source)],
    which [admin_settings_handle_restore] calls but storage.py does not
    define.  The spec: it "replaces the entire in-memory state with a
    previously serialized snapshot after validating that the snapshot
    contains the minimum required top-level fields (pool, users, approved,
    pending); fails with a format error if any are missing".  The state is
    the JSON document [_data]; [snapshot] is the parsed content of
    [source]. *)
Definition restore_from_backup (snapshot : json) (data : json) : restore_result * json :=
  match filter (fun k => negb (json_has_key k snapshot)) restore_required_keys with
  | [] => (RestoreOk, snapshot)
  | missing => (RestoreFormatError missing, data)
  end.

(* ------------------------------------------------------------------ *)
(** ** [str.format] with keyword arguments: which calls raise *)

(** This part follows CPython's [MarkupIterator_next], [parse_field],
    [field_name_split], [get_integer] and [output_markup]
    (Objects/stringlib/unicode_format.h).  It computes whether the call
    raises, and which exception; the formatted text itself is not
    computed.  Text is the UTF-8 byte string.  The only special characters
    are ASCII, and no UTF-8 continuation byte is ASCII, so the scan over
    bytes finds the same braces as the scan over code points.  Outside the
    model:
    - attribute and item access after the first part of a field name
      ([{prize.upper}], [{prize[0]}]);
    - non-empty format specs ([{total_tickets:d}]);
    - non-ASCII decimal digits, which [get_integer] would also accept.
    The first two give [FmtUnmodelled]. *)

Inductive pyval := PyStr (s : string) | PyInt (z : Z).

Inductive format_error :=
  | FmtKeyError (key : string)
  | FmtIndexError
  | FmtValueError (msg : string)
  | FmtUnmodelled.

(** Position of the scan. *)
Inductive fmode :=
  | MLit                                          (** literal text *)
  | MOpen                                         (** after a ['{'] *)
  | MClose                                        (** after a ['}'] *)
  | MName (name : string) (in_bracket : bool)     (** in the field name *)
  | MConvStart (name : string)                    (** after ['!'] *)
  | MConvAfter (name : string) (conv : ascii)     (** after the conversion *)
  | MSpec (name : string) (conv : option ascii) (spec : string)
          (depth : nat) (nested : bool).          (** in the format spec *)

Inductive fstep :=
  | Next (m : fmode)
  | Fail (e : format_error)
  | Done (name : string) (conv : option ascii) (spec : string) (nested : bool).

Definition snoc (s : string) (c : ascii) : string := s ++ String c EmptyString.

(** One character of a replacement field ([parse_field]). *)
Definition field_char (m : fmode) (c : ascii) : fstep :=
  match m with
  | MName name false =>
      if Ascii.eqb c "{" then Fail (FmtValueError "unexpected '{' in field name")
      else if Ascii.eqb c "[" then Next (MName (snoc name c) true)
      else if Ascii.eqb c "}" then Done name None "" false
      else if Ascii.eqb c ":" then Next (MSpec name None "" 1 false)
      else if Ascii.eqb c "!" then Next (MConvStart name)
      else Next (MName (snoc name c) false)
  | MName name true =>
      Next (MName (snoc name c) (negb (Ascii.eqb c "]")))
  | MConvStart name => Next (MConvAfter name c)
  | MConvAfter name conv =>
      if Ascii.eqb c "}" then Done name (Some conv) "" false
      else if Ascii.eqb c ":" then Next (MSpec name (Some conv) "" 1 false)
      else Fail (FmtValueError "expected ':' after conversion specifier")
  | MSpec name conv spec depth nested =>
      if Ascii.eqb c "{" then Next (MSpec name conv (snoc spec c) (S depth) true)
      else if Ascii.eqb c "}" then
        (if Nat.eqb depth 1 then Done name conv spec nested
         else Next (MSpec name conv (snoc spec c) (pred depth) nested))
      else Next (MSpec name conv (snoc spec c) depth nested)
  | _ => Next m
  end.

(** The error raised when the text ends in mode [m]. *)
Definition end_error (m : fmode) : option format_error :=
  match m with
  | MLit => None
  | MOpen => Some (FmtValueError "Single '{' encountered in format string")
  | MClose => Some (FmtValueError "Single '}' encountered in format string")
  | MName _ _ => Some (FmtValueError "expected '}' before end of string")
  | MConvStart _ =>
      Some (FmtValueError "end of string while looking for conversion specifier")
  | MConvAfter _ _ | MSpec _ _ _ _ _ =>
      Some (FmtValueError "unmatched '{' in format spec")
  end.

(** [field_name_split]: the part before the first ['.'] or ['['], and the
    rest. *)
Fixpoint split_first (name : string) : string * string :=
  match name with
  | EmptyString => ("", "")
  | String c rest =>
      if Ascii.eqb c "." || Ascii.eqb c "[" then ("", name)
      else let '(a, b) := split_first rest in (String c a, b)
  end.

Definition is_ascii_digit (c : ascii) : bool :=
  let n := Ascii.nat_of_ascii c in Nat.leb 48 n && Nat.leb n 57.

Inductive int_parse := NotInt | IsInt (z : Z) | TooManyDigits.

(** [PY_SSIZE_T_MAX] on a 64-bit build. *)
Definition PY_SSIZE_T_MAX : Z := 9223372036854775807.

Fixpoint get_integer_acc (acc : Z) (s : string) : int_parse :=
  match s with
  | EmptyString => IsInt acc
  | String c rest =>
      if is_ascii_digit c then
        let d := Z.of_nat (Ascii.nat_of_ascii c) - 48 in
        if (PY_SSIZE_T_MAX - d) / 10 <? acc then TooManyDigits
        else get_integer_acc (acc * 10 + d) rest
      else NotInt
  end.

(** [get_integer]: [-1] ([NotInt]) for the empty string or a non-digit. *)
Definition get_integer (s : string) : int_parse :=
  match s with EmptyString => NotInt | _ => get_integer_acc 0 s end.

(** [output_markup] for one field, with [args = ()] as in
    [text.format] with keyword arguments only: a numeric or empty first part indexes the
    empty positional tuple.  The first such field raises, so the
    auto-numbering state never reaches its switching errors. *)
Definition format_field (kw : list (string * pyval)) (name : string)
    (conv : option ascii) (spec : string) (nested : bool) : option format_error :=
  let '(first, rest) := split_first name in
  match get_integer first with
  | TooManyDigits => Some (FmtValueError "Too many decimal digits in format string")
  | IsInt _ => Some FmtIndexError
  | NotInt =>
      if String.eqb first "" then Some FmtIndexError
      else
        match list_find (fun kv => kv.1 = first) kw with
        | None => Some (FmtKeyError first)
        | Some _ =>
            if negb (String.eqb rest "") then Some FmtUnmodelled
            else
              match conv with
              | Some c =>
                  if Ascii.eqb c "r" || Ascii.eqb c "s" || Ascii.eqb c "a"
                  then (if nested || negb (String.eqb spec "") then Some FmtUnmodelled else None)
                  else Some (FmtValueError "Unknown conversion specifier")
              | None =>
                  if nested || negb (String.eqb spec "") then Some FmtUnmodelled else None
              end
        end
  end.

(** The scan of [MarkupIterator_next]; fields are formatted as soon as
    they are read, so the first failing field decides the exception. *)
Fixpoint format_run (kw : list (string * pyval)) (m : fmode) (t : string)
    : option format_error :=
  match t with
  | EmptyString => end_error m
  | String c t' =>
      match m with
      | MLit =>
          if Ascii.eqb c "{" then format_run kw MOpen t'
          else if Ascii.eqb c "}" then format_run kw MClose t'
          else format_run kw MLit t'
      | MClose =>
          if Ascii.eqb c "}" then format_run kw MLit t'
          else Some (FmtValueError "Single '}' encountered in format string")
      | _ =>
          if (match m with MOpen => Ascii.eqb c "{" | _ => false end)
          then format_run kw MLit t'
          else
            let m0 := (match m with MOpen => MName "" false | _ => m end) in
            match field_char m0 c with
            | Next m' => format_run kw m' t'
            | Fail e => Some e
            | Done name conv spec nested =>
                match format_field kw name conv spec nested with
                | Some e => Some e
                | None => format_run kw MLit t'
                end
            end
      end
  end.

(** [text.format] called with the keyword arguments [kw]: [None] when it returns. *)
Definition py_format (text : string) (kw : list (string * pyval)) : option format_error :=
  format_run kw MLit text.

(* ------------------------------------------------------------------ *)
(** ** Template validation and the template setters *)

(** [str.isspace] on one byte: the ASCII whitespace, including the
    separators [\x1c]..[\x1f]. *)
Definition is_py_space (c : ascii) : bool :=
  let n := Ascii.nat_of_ascii c in
  (Nat.leb 9 n && Nat.leb n 13) || (Nat.leb 28 n && Nat.leb n 32).

(** The whitespace of [str.isspace] beyond ASCII, in UTF-8: U+0085 and
    U+00A0 take two bytes, ... *)
Definition space2 (c1 c2 : ascii) : bool :=
  Nat.eqb (Ascii.nat_of_ascii c1) 194 &&
  (Nat.eqb (Ascii.nat_of_ascii c2) 133 || Nat.eqb (Ascii.nat_of_ascii c2) 160).

(** ... and U+1680, U+2000..U+200A, U+2028, U+2029, U+202F, U+205F and
    U+3000 take three. *)
Definition space3 (c1 c2 c3 : ascii) : bool :=
  let n1 := Ascii.nat_of_ascii c1 in
  let n2 := Ascii.nat_of_ascii c2 in
  let n3 := Ascii.nat_of_ascii c3 in
  (Nat.eqb n1 225 && Nat.eqb n2 154 && Nat.eqb n3 128) ||
  (Nat.eqb n1 226 && Nat.eqb n2 128 &&
     ((Nat.leb 128 n3 && Nat.leb n3 138) || Nat.eqb n3 168 || Nat.eqb n3 169 ||
      Nat.eqb n3 175)) ||
  (Nat.eqb n1 226 && Nat.eqb n2 129 && Nat.eqb n3 159) ||
  (Nat.eqb n1 227 && Nat.eqb n2 128 && Nat.eqb n3 128).

(** The UTF-8 encoding [e] of one character is a whitespace character
    ([str.isspace]). *)
Definition space_char (e : list ascii) : bool :=
  match e with
  | [c] => is_py_space c
  | [c1; c2] => space2 c1 c2
  | [c1; c2; c3] => space3 c1 c2 c3
  | _ => false
  end.

(** A text made of whitespace characters only. *)
Inductive py_spaces : list ascii -> Prop :=
  | spaces_nil : py_spaces []
  | spaces_cons e cs : space_char e = true -> py_spaces cs -> py_spaces (e ++ cs).

(** Whitespace characters dropped from the front of [cs], with the tests
    [sp2] and [sp3] for the two- and three-byte ones. *)
Fixpoint strip_front (sp2 : ascii -> ascii -> bool) (sp3 : ascii -> ascii -> ascii -> bool)
    (cs : list ascii) : list ascii :=
  match cs with
  | [] => []
  | c1 :: rest1 =>
      if is_py_space c1 then strip_front sp2 sp3 rest1 else
      match rest1 with
      | [] => cs
      | c2 :: rest2 =>
          if sp2 c1 c2 then strip_front sp2 sp3 rest2 else
          match rest2 with
          | [] => cs
          | c3 :: rest3 => if sp3 c1 c2 c3 then strip_front sp2 sp3 rest3 else cs
          end
      end
  end.

(** [str.lstrip()] on the UTF-8 bytes of a text.  The scan starts at a
    character boundary and steps over whole characters, so it sees the
    characters of the text. *)
Definition py_lstrip (cs : list ascii) : list ascii := strip_front space2 space3 cs.

(** [str.rstrip()]: the same scan over the reversed bytes.  In UTF-8 the
    last two or three bytes of a text are one whole character exactly
    when they are [C2 85], [C2 A0] or a three-byte whitespace, since [C2]
    and [E1]..[E3] are leading bytes. *)
Definition py_rstrip (cs : list ascii) : list ascii :=
  rev (strip_front (fun c2 c1 => space2 c1 c2) (fun c3 c2 c1 => space3 c1 c2 c3) (rev cs)).

(** [str.strip()] with no argument. *)
Definition py_strip (text : string) : string :=
  string_of_list_ascii (py_rstrip (py_lstrip (list_ascii_of_string text))).









(** The three template writers, with the placeholders each allows. *)
Inductive template_kind := StartTemplate | SubscriptionTemplate | GameInfoTemplate.



(** The [format] calls of [render_start_content],
    [render_subscription_message] and [render_game_info_message] on the
    stored template ([None]: the text renders). *)
Definition render_start_content (prize : string) (total remaining : Z)
    (price : string) (s : store) : option format_error :=
  py_format (sm_text (m_start_message (s_meta s)))
    [("prize", PyStr prize); ("total_tickets", PyInt total);
     ("remaining_tickets", PyInt remaining); ("ticket_price", PyStr price)].

Definition render_subscription_message (channels_block : string) (s : store)
    : option format_error :=
  py_format (m_subscription_message (s_meta s)) [("channels", PyStr channels_block)].

Definition render_game_info_message (prize : string) (total : Z) (price : string)
    (s : store) : option format_error :=
  let remaining := Z.of_nat (length (available_tickets s)) in
  py_format (m_game_info_message (s_meta s))
    [("prize", PyStr prize); ("total_tickets", PyInt total);
     ("sold_tickets", PyInt (Z.max 0 (total - remaining)));
     ("remaining_tickets", PyInt remaining); ("ticket_price", PyStr price)].

(** The stored template of a kind, rendered with its live values. *)
Definition render_template (k : template_kind) (prize : string) (total : Z)
    (price : string) (channels_block : string) (s : store) : option format_error :=
  match k with
  | StartTemplate =>
      render_start_content prize total (Z.of_nat (length (available_tickets s))) price s
  | SubscriptionTemplate => render_subscription_message channels_block s
  | GameInfoTemplate => render_game_info_message prize total price s
  end.









(* ------------------------------------------------------------------ *)
(** ** Invariants *)

(** Pool and approved tickets together are a rearrangement of [1..N], and
    no id is both pending and approved. *)
Definition ticket_inv (total_tickets_cfg : Z) (s : store) : Prop :=
  (available_tickets s ++ approved_tickets (approved s) ≡ₚ
     py_range 1 (total_tickets_cfg + 1)) /\
  (forall k, is_Some (pending s !! k) -> approved s !! k = None).

(** The sum of the amounts of user [u]'s approved purchases. *)
Definition user_amounts (u : Z) (m : gmap string purchase) : Z :=
  msum (fun p => if Z.eqb (p_user_id p) u then amount p else 0) m.

(** Each user's [total_spent] is the sum of the amounts of that user's
    approved purchases, every approved purchase has a user record, and the
    amounts are nonnegative. *)
Definition revenue_inv (s : store) : Prop :=
  msum total_spent (users s) = msum amount (approved s) /\
  (forall u r, users s !! u = Some r -> total_spent r = user_amounts u (approved s)) /\
  (forall k p, approved s !! k = Some p -> is_Some (users s !! p_user_id p)) /\
  (forall k p, approved s !! k = Some p -> 0 <= amount p) /\
  (forall k p, pending s !! k = Some p -> 0 <= amount p) /\
  (forall k, is_Some (pending s !! k) -> approved s !! k = None).

(** What the buy flow passes to [create_pending_purchase]: a quantity of at
    least one (checked in [receive_quantity]) and the configured price. *)
Definition nonneg_create (qty price : Z) : Prop := 0 <= qty /\ 0 <= price.

(* ================================================================== *)
(* ------------------------------------------------------------------ *)
(** ** [get_subscription_config], [set_subscription_enabled], [add_subscription_channel], [remove_subscription_channel] *)

(** The store with its [subscriptions] dictionary replaced. *)
Definition set_subscriptions (sb : subscriptions) (s : store) : store :=
  {| available_tickets := available_tickets s; pending := pending s; approved := approved s;
     rejected := rejected s; user_tickets := user_tickets s; users := users s;
     s_meta := s_meta s; s_subscriptions := sb |}.

(** [get_subscription_config]: the [enabled] flag and (a copy of) the channel list. *)
Definition get_subscription_config (s : store) : bool * list channel :=
  (sub_enabled (s_subscriptions s), sub_channels (s_subscriptions s)).

(** [set_subscription_enabled]: [subs["enabled"] = bool(enabled)]. *)
Definition set_subscription_enabled (enabled : bool) (s : store) : store :=
  set_subscriptions {| sub_enabled := enabled;
                       sub_channels := sub_channels (s_subscriptions s) |} s.

(** The [for ... else] loop of [add_subscription_channel]: the first channel with
    the id gets the new title and link ([item.update], the id is kept); when no
    channel has the id, the new channel is appended. *)
Fixpoint add_channel (cid title : string) (link : option string) (chs : list channel)
    : list channel :=
  match chs with
  | [] => [{| ch_id := cid; ch_title := title; ch_link := link |}]
  | c :: rest =>
      if String.eqb (ch_id c) cid
      then {| ch_id := ch_id c; ch_title := title; ch_link := link |} :: rest
      else c :: add_channel cid title link rest
  end.

(** [add_subscription_channel]: the channel list after the loop above. *)
Definition add_subscription_channel (cid title : string) (link : option string) (s : store)
    : store :=
  set_subscriptions {| sub_enabled := sub_enabled (s_subscriptions s);
                       sub_channels := add_channel cid title link
                                         (sub_channels (s_subscriptions s)) |} s.

(** [remove_subscription_channel]: the channels with another id are kept; the
    result is [changed] (the length went down) and the new store. *)
Definition remove_subscription_channel (cid : string) (s : store) : bool * store :=
  let channels := sub_channels (s_subscriptions s) in
  let kept := List.filter (fun c => negb (String.eqb (ch_id c) cid)) channels in
  (negb (Nat.eqb (length kept) (length channels)),
   set_subscriptions {| sub_enabled := sub_enabled (s_subscriptions s);
                        sub_channels := kept |} s).

(** Some channel of the list has the id. *)
Definition has_channel (cid : string) (chs : list channel) : bool :=
  existsb (fun c => String.eqb (ch_id c) cid) chs.

(* ------------------------------------------------------------------ *)
(** ** [set_card_number], [get_card_number], [set_manager_contact], [get_manager_contact], [reset_game_info_message] *)

(** [set_card_number]: [meta["card_number"] = card_number.strip()]. *)
Definition set_card_number (card_number : string) (s : store) : store :=
  set_meta {| m_start_message := m_start_message (s_meta s);
              m_subscription_message := m_subscription_message (s_meta s);
              m_manager_contact := m_manager_contact (s_meta s);
              m_game_info_message := m_game_info_message (s_meta s);
              m_card_number := py_strip card_number |} s.

(** [get_card_number]: the stored [card_number], with an empty one read as
    the empty string ([or]). *)
Definition get_card_number (s : store) : string :=
  let c := m_card_number (s_meta s) in if String.eqb c "" then "" else c.

(** [set_manager_contact]: [meta["manager_contact"] = username.strip()]. *)
Definition set_manager_contact (uname : string) (s : store) : store :=
  set_meta {| m_start_message := m_start_message (s_meta s);
              m_subscription_message := m_subscription_message (s_meta s);
              m_manager_contact := py_strip uname;
              m_game_info_message := m_game_info_message (s_meta s);
              m_card_number := m_card_number (s_meta s) |} s.

(** [get_manager_contact]: the stored contact, or [@menejer_1w] when it is empty. *)
Definition get_manager_contact (s : store) : string :=
  let c := m_manager_contact (s_meta s) in if String.eqb c "" then "@menejer_1w" else c.

(** [reset_game_info_message]: stores and returns [DEFAULT_GAME_INFO_MESSAGE]. *)
Definition reset_game_info_message (s : store) : string * store :=
  (DEFAULT_GAME_INFO_MESSAGE,
   set_meta {| m_start_message := m_start_message (s_meta s);
               m_subscription_message := m_subscription_message (s_meta s);
               m_manager_contact := m_manager_contact (s_meta s);
               m_game_info_message := DEFAULT_GAME_INFO_MESSAGE;
               m_card_number := m_card_number (s_meta s) |} s).

(** Neither the first nor the last character of the text is whitespace. *)
Definition edge_trimmed (cs : list ascii) : Prop :=
  (forall e rest, cs = e ++ rest -> space_char e = false) /\
  (forall e rest, cs = rest ++ e -> space_char e = false).

(* ------------------------------------------------------------------ *)
(** ** [get_summary] and [get_user_tickets] *)

(** The dictionary returned by [get_summary]. *)
Record summary := {
  su_total : Z; su_sold : Z; su_remaining : Z; su_pending_count : Z; su_revenue : Z
}.

(** [get_summary]: [sold] is the configured total minus the size of the pool;
    [revenue] sums the [amount] of the approved purchases. *)
Definition get_summary (total_tickets_cfg : Z) (s : store) : summary :=
  let remaining := Z.of_nat (length (available_tickets s)) in
  {| su_total := total_tickets_cfg; su_sold := total_tickets_cfg - remaining;
     su_remaining := remaining; su_pending_count := Z.of_nat (size (pending s));
     su_revenue := msum amount (approved s) |}.

(** The sum of [f] over the approved purchases of user [u]. *)
Definition user_sum (f : purchase -> Z) (u : Z) (m : gmap string purchase) : Z :=
  msum (fun p => if Z.eqb (p_user_id p) u then f p else 0) m.

(** The counters kept in the user records agree with the approved purchases:
    totals, per-user sums, owners, ticket-list lengths, and disjointness of
    [pending] and [approved]. *)
Definition count_inv (s : store) : Prop :=
  msum total_tickets (users s) = msum quantity (approved s) /\
  msum purchases (users s) = msum (fun _ => 1) (approved s) /\
  (forall u r, users s !! u = Some r ->
     total_tickets r = user_sum quantity u (approved s) /\
     purchases r = user_sum (fun _ => 1) u (approved s)) /\
  (forall k p, approved s !! k = Some p -> is_Some (users s !! p_user_id p)) /\
  (forall k p, approved s !! k = Some p ->
     Z.of_nat (length (default [] (p_tickets p))) = quantity p) /\
  (forall k, is_Some (pending s !! k) -> approved s !! k = None).

(** The tickets of the approved purchases of user [u]. *)
Definition user_approved_tickets (u : Z) (m : gmap string purchase) : list Z :=
  concat (map (fun kv => if Z.eqb (p_user_id kv.2) u then default [] (p_tickets kv.2) else [])
              (map_to_list m)).

(** [get_user_tickets]: [sorted(user_tickets.get(str(user_id), []))].  On a list
    of integers every sort gives the same list, so stdpp's merge sort is used. *)
Definition get_user_tickets (uid : Z) (s : store) : list Z :=
  merge_sort Z.le (default [] (user_tickets s !! uid)).

(** Each user's [user_tickets] list is a permutation of the tickets of that
    user's approved purchases. *)
Definition bucket_inv (s : store) : Prop :=
  forall u, default [] (user_tickets s !! u) ≡ₚ user_approved_tickets u (approved s).

(* ------------------------------------------------------------------ *)
(** ** Startup: [__init__], [_load], [_default_payload], [_ensure_defaults] *)

(** [d.get(k)] on a JSON object, kept as an association list with distinct keys. *)
Fixpoint obj_get (k : string) (fs : list (string * json)) : option json :=
  match fs with
  | [] => None
  | (k', v) :: rest => if String.eqb k' k then Some v else obj_get k rest
  end.

(** [d[k] = v]: the value is replaced in place, or the key is appended. *)
Fixpoint obj_put (k : string) (v : json) (fs : list (string * json)) : list (string * json) :=
  match fs with
  | [] => [(k, v)]
  | (k', v') :: rest =>
      if String.eqb k' k then (k', v) :: rest else (k', v') :: obj_put k v rest
  end.

(** [d.setdefault(k, v)]: the value it returns and the dictionary after it. *)
Definition obj_setdefault (k : string) (v : json) (fs : list (string * json))
    : json * list (string * json) :=
  match obj_get k fs with
  | Some v0 => (v0, fs)
  | None => (v, obj_put k v fs)
  end.

(** [_default_payload]: the payload written when no data file exists (it has no
    [card_number]). *)
Definition default_payload (total_tickets_cfg : Z) : json :=
  JObj [("available_tickets", JArr (map JInt (py_range 1 (total_tickets_cfg + 1))));
        ("pending", JObj []); ("approved", JObj []); ("rejected", JObj []);
        ("user_tickets", JObj []); ("users", JObj []);
        ("meta", JObj [("start_message", JObj [("text", JStr DEFAULT_START_TEMPLATE);
                                                ("media", JNull)]);
                       ("subscription_message", JStr DEFAULT_SUBSCRIPTION_MESSAGE);
                       ("manager_contact", JStr "@menejer_1w");
                       ("game_info_message", JStr DEFAULT_GAME_INFO_MESSAGE)]);
        ("subscriptions", JObj [("enabled", JBool false); ("channels", JArr [])])].

(** The [start_message] step of [_ensure_defaults]: a missing entry is built from
    the legacy [start_template]; a present one gets [text] and [media] by
    [setdefault].  [None]: Python raises, as [setdefault] does on a
    [start_message] that is not a dictionary. *)
Definition ensure_start_message (mt : list (string * json)) : option (list (string * json)) :=
  match obj_get "start_message" mt with
  | None =>
      let legacy_template := default (JStr DEFAULT_START_TEMPLATE) (obj_get "start_template" mt) in
      Some (obj_put "start_message" (JObj [("text", legacy_template); ("media", JNull)]) mt)
  | Some (JObj sm) =>
      let sm1 := (obj_setdefault "text" (JStr DEFAULT_START_TEMPLATE) sm).2 in
      let sm2 := (obj_setdefault "media" JNull sm1).2 in
      Some (obj_put "start_message" (JObj sm2) mt)
  | Some _ => None
  end.

(** The [meta] steps of [_ensure_defaults]; [card_number] is set to
    the configured default (or the empty string) only
    when missing. *)
Definition ensure_meta (default_card_number : option string) (mt : list (string * json))
    : option (list (string * json)) :=
  match ensure_start_message mt with
  | None => None
  | Some m1 =>
      let m2 := (obj_setdefault "subscription_message" (JStr DEFAULT_SUBSCRIPTION_MESSAGE) m1).2 in
      let m3 := match obj_get "card_number" m2 with
                | None => obj_put "card_number" (JStr (default "" default_card_number)) m2
                | Some _ => m2
                end in
      let m4 := (obj_setdefault "manager_contact" (JStr "@menejer_1w") m3).2 in
      Some (obj_setdefault "game_info_message" (JStr DEFAULT_GAME_INFO_MESSAGE) m4).2
  end.

(** [_ensure_defaults]: the [setdefault] calls on the payload in their order.
    [None]: Python raises (the payload, [meta] or [subscriptions] is not a
    dictionary, or [start_message] is not one). *)
Definition _ensure_defaults (total_tickets_cfg : Z) (default_card_number : option string)
    (payload : json) : option json :=
  match payload with
  | JObj fs0 =>
      let fs1 := (obj_setdefault "available_tickets"
                    (JArr (map JInt (py_range 1 (total_tickets_cfg + 1)))) fs0).2 in
      let fs2 := (obj_setdefault "pending" (JObj []) fs1).2 in
      let fs3 := (obj_setdefault "approved" (JObj []) fs2).2 in
      let fs4 := (obj_setdefault "rejected" (JObj []) fs3).2 in
      let fs5 := (obj_setdefault "user_tickets" (JObj []) fs4).2 in
      let fs6 := (obj_setdefault "users" (JObj []) fs5).2 in
      match obj_setdefault "meta" (JObj []) fs6 with
      | (JObj mt, fs7) =>
          match ensure_meta default_card_number mt with
          | None => None
          | Some mt' =>
              let fs8 := obj_put "meta" (JObj mt') fs7 in
              match obj_setdefault "subscriptions" (JObj []) fs8 with
              | (JObj sb, fs9) =>
                  let sb1 := (obj_setdefault "enabled" (JBool false) sb).2 in
                  let sb2 := (obj_setdefault "channels" (JArr []) sb1).2 in
                  Some (JObj (obj_put "subscriptions" (JObj sb2) fs9))
              | _ => None
              end
          end
      | _ => None
      end
  | _ => None
  end.

(** The result of code that may raise.  [Unmodelled] marks inputs outside the
    model: [int()] of a string holding a non-ASCII character that may be a
    Unicode decimal digit. *)
Inductive outcome (A : Type) := Ok (a : A) | Raises | Unmodelled.

Arguments Ok {A} a.

Arguments Raises {A}.

Arguments Unmodelled {A}.

(** The UTF-8 encodings of the characters of a text; the leading byte
    gives the length. *)
Definition utf8_len (c : ascii) : nat :=
  let n := Ascii.nat_of_ascii c in
  if Nat.ltb n 192 then 1 else if Nat.ltb n 224 then 2 else if Nat.ltb n 240 then 3 else 4.

Fixpoint utf8_chars (cs : list ascii) : list (list ascii) :=
  match cs with
  | [] => []
  | c :: rest =>
      match utf8_len c, rest with
      | 2%nat, c2 :: r2 => [c; c2] :: utf8_chars r2
      | 3%nat, c2 :: c3 :: r3 => [c; c2; c3] :: utf8_chars r3
      | 4%nat, c2 :: c3 :: c4 :: r4 => [c; c2; c3; c4] :: utf8_chars r4
      | _, _ => [c] :: utf8_chars rest
      end
  end.

(** One character of [int()]'s argument after
    [_PyUnicode_TransformDecimalAndSpaceToASCII] (Objects/unicodeobject.c):
    an ASCII character stays, a non-ASCII whitespace character becomes a
    space, and any other non-ASCII character becomes its digit if it is a
    Unicode decimal digit and ['?'] otherwise; which of the two is outside
    the model ([IOther]). *)
Inductive int_char := IAscii (c : ascii) | IOther.

Definition int_char_of (e : list ascii) : int_char :=
  match e with
  | [c] => if Nat.ltb (Ascii.nat_of_ascii c) 128 then IAscii c else IOther
  | _ => if space_char e then IAscii " " else IOther
  end.

(** [Py_ISSPACE], the whitespace [PyLong_FromString] skips: tab, line feed,
    vertical tab, form feed, carriage return and space. *)
Definition c_isspace (c : ascii) : bool :=
  let n := Ascii.nat_of_ascii c in (Nat.leb 9 n && Nat.leb n 13) || Nat.eqb n 32.

Definition int_space (t : int_char) : bool :=
  match t with IAscii c => c_isspace c | IOther => false end.

Definition int_is (c : ascii) (t : int_char) : bool :=
  match t with IAscii c' => Ascii.eqb c' c | IOther => false end.

(** A digit: [Some (Some d)] for an ASCII digit [d], [Some None] for an
    [IOther], which the parse reads as a digit of unknown value. *)
Definition int_digit (t : int_char) : option (option Z) :=
  match t with
  | IAscii c =>
      if is_ascii_digit c then Some (Some (Z.of_nat (Ascii.nat_of_ascii c) - 48)) else None
  | IOther => Some None
  end.

Fixpoint skip_spaces (ts : list int_char) : list int_char :=
  match ts with
  | t :: rest => if int_space t then skip_spaces rest else ts
  | [] => []
  end.

(** The digit loop of [long_from_string_base] after the first digit: digits,
    each possibly after one ['_'].  The digits read and the rest; [None]
    for a ['_'] not followed by a digit (a double or trailing underscore),
    which raises [ValueError]. *)
Fixpoint scan_digits (ts : list int_char) : option (list (option Z) * list int_char) :=
  match ts with
  | [] => Some ([], [])
  | t :: rest =>
      match int_digit t with
      | Some d => option_map (fun p => (d :: p.1, p.2)) (scan_digits rest)
      | None =>
          if int_is "_" t then
            match rest with
            | u :: rest' =>
                match int_digit u with
                | Some d => option_map (fun p => (d :: p.1, p.2)) (scan_digits rest')
                | None => None
                end
            | [] => None
            end
          else Some ([], ts)
      end
  end.

(** The value of the digits; [None] when one of them is unknown. *)
Fixpoint digits_value (acc : Z) (ds : list (option Z)) : option Z :=
  match ds with
  | [] => Some acc
  | Some d :: rest => digits_value (acc * 10 + d) rest
  | None :: _ => None
  end.

(** [sys.get_int_max_str_digits()] at its default. *)
Definition int_max_str_digits : nat := 4300.

(** The sign-less part of [PyLong_FromString] for base 10: a digit, the
    digit loop, trailing whitespace, and the end of the text; more than
    [int_max_str_digits] digits raise [ValueError].  When the parse
    succeeds with an [IOther] read as a digit, the call either returns or
    raises: [Unmodelled]. *)
Definition parse_unsigned (neg : bool) (ts : list int_char) : outcome Z :=
  match ts with
  | [] => Raises
  | t :: rest =>
      match int_digit t, scan_digits rest with
      | Some d, Some (ds, r) =>
          if negb (forallb int_space r) then Raises
          else if Nat.ltb int_max_str_digits (length (d :: ds)) then Raises
          else
            match digits_value 0 (d :: ds) with
            | Some v => Ok (if neg then - v else v)
            | None => Unmodelled
            end
      | _, _ => Raises
      end
  end.

(** [PyLong_FromString] with base 10: leading whitespace, an optional
    sign, then the number.  Every failure is a [ValueError]. *)
Definition parse_int (ts : list int_char) : outcome Z :=
  match skip_spaces ts with
  | t :: rest =>
      if int_is "-" t then parse_unsigned true rest
      else if int_is "+" t then parse_unsigned false rest
      else parse_unsigned false (t :: rest)
  | [] => Raises
  end.

(** [int(text)] on a string ([PyLong_FromUnicodeObject] with base 10). *)
Definition py_int_text (text : string) : outcome Z :=
  parse_int (map int_char_of (utf8_chars (list_ascii_of_string text))).

(** [int(x)] on a float: truncation toward zero; an infinity raises
    [OverflowError] and a NaN [ValueError]. *)
Definition float_trunc (f : spec_float) : outcome Z :=
  match f with
  | S754_zero _ => Ok 0
  | S754_infinity _ | S754_nan => Raises
  | S754_finite s m e =>
      let v := if Z.leb 0 e then Z.pos m * 2 ^ e else Z.pos m / 2 ^ (- e) in
      Ok (if s then - v else v)
  end.

(** [int(t)] on a JSON value: integers, floats, booleans and strings convert
    as above; [None], lists and dictionaries raise [TypeError]. *)
Definition py_int (j : json) : outcome Z :=
  match j with
  | JInt z => Ok z
  | JFloat f => float_trunc f
  | JBool b => Ok (if b then 1 else 0)
  | JStr s => py_int_text s
  | JNull | JArr _ | JObj _ => Raises
  end.

(** Iterating a JSON value ([for t in available]): a list gives its items, a
    dictionary its keys, a string its characters; the others raise
    [TypeError]. *)
Definition py_iter (j : json) : outcome (list json) :=
  match j with
  | JArr items => Ok items
  | JObj fs => Ok (map (fun kv => JStr kv.1) fs)
  | JStr s => Ok (map (fun e => JStr (string_of_list_ascii e)) (utf8_chars (list_ascii_of_string s)))
  | JInt _ | JFloat _ | JBool _ | JNull => Raises
  end.

(** [{int(t) for t in items}] before the set is built: the [int()] of every
    item, in order.  The comprehension stops at the first item whose
    [int()] raises; an item outside the model before it returns or raises,
    and the comprehension raises either way, so a raising item anywhere
    makes it raise. *)
Fixpoint py_ints (items : list json) : outcome (list Z) :=
  match items with
  | [] => Ok []
  | t :: rest =>
      match py_int t, py_ints rest with
      | Raises, _ | _, Raises => Raises
      | Unmodelled, _ | _, Unmodelled => Unmodelled
      | Ok z, Ok zs => Ok (z :: zs)
      end
  end.

(** [_load] on an existing data file whose content parsed to [payload]: the
    pool becomes [sorted({int(t) for t in payload.get("available_tickets", [])})]. *)
Definition _load (payload : json) : outcome json :=
  match payload with
  | JObj fs =>
      match py_iter (default (JArr []) (obj_get "available_tickets" fs)) with
      | Ok items =>
          match py_ints items with
          | Ok zs => Ok (JObj (obj_put "available_tickets" (JArr (map JInt (sorted_set zs))) fs))
          | Raises => Raises
          | Unmodelled => Unmodelled
          end
      | Raises => Raises
      | Unmodelled => Unmodelled
      end
  | _ => Raises
  end.

(** [__init__]: [_load] then [_ensure_defaults].  [file] is the parsed data file,
    [None] when it does not exist; the result is [_data] and the file content
    after the constructor ([_load] writes the default payload on first start). *)
Definition storage_init (total_tickets_cfg : Z) (default_card_number : option string)
    (file : option json) : outcome (json * json) :=
  match file with
  | None =>
      let payload := default_payload total_tickets_cfg in
      match _ensure_defaults total_tickets_cfg default_card_number payload with
      | Some data => Ok (data, payload)
      | None => Raises
      end
  | Some content =>
      match _load content with
      | Ok payload =>
          match _ensure_defaults total_tickets_cfg default_card_number payload with
          | Some data => Ok (data, content)
          | None => Raises
          end
      | Raises => Raises
      | Unmodelled => Unmodelled
      end
  end.

(** The JSON value is a dictionary. *)
Definition is_obj (j : json) : bool := match j with JObj _ => true | _ => false end.

(** What [_ensure_defaults] guarantees about the keys of [_data]. *)
Definition meta_ensured (mt : list (string * json)) : Prop :=
  (exists sm, obj_get "start_message" mt = Some (JObj sm) /\
              is_Some (obj_get "text" sm) /\ is_Some (obj_get "media" sm)) /\
  is_Some (obj_get "subscription_message" mt) /\ is_Some (obj_get "card_number" mt) /\
  is_Some (obj_get "manager_contact" mt) /\ is_Some (obj_get "game_info_message" mt).

(** The keys of [_data] guaranteed by [_ensure_defaults]. *)
Definition payload_ensured (fs : list (string * json)) : Prop :=
  is_Some (obj_get "available_tickets" fs) /\ is_Some (obj_get "pending" fs) /\
  is_Some (obj_get "approved" fs) /\ is_Some (obj_get "rejected" fs) /\
  is_Some (obj_get "user_tickets" fs) /\ is_Some (obj_get "users" fs) /\
  (exists mt, obj_get "meta" fs = Some (JObj mt) /\ meta_ensured mt) /\
  (exists sb, obj_get "subscriptions" fs = Some (JObj sb) /\
              is_Some (obj_get "enabled" sb) /\ is_Some (obj_get "channels" sb)).

(** * Lemmas *)

(** ** Sums over dictionaries *)

Section MapSums.
Context {K A : Type} `{Countable K}.

Lemma foldr_sum_perm (f : A -> Z) (l1 l2 : list (K * A)) :
  l1 ≡ₚ l2 ->
  foldr (fun kv acc => f kv.2 + acc) 0 l1 = foldr (fun kv acc => f kv.2 + acc) 0 l2.
Proof. induction 1; simpl; lia. Qed.

Lemma msum_empty (f : A -> Z) : msum f (∅ : gmap K A) = 0.
Proof. unfold msum. rewrite map_to_list_empty. reflexivity. Qed.

Lemma msum_insert_new (f : A -> Z) (m : gmap K A) k v :
  m !! k = None -> msum f (<[k := v]> m) = f v + msum f m.
Proof.
  intros Hk. unfold msum.
  rewrite (foldr_sum_perm f _ _ (map_to_list_insert m k v Hk)). reflexivity.
Qed.

Lemma msum_delete (f : A -> Z) (m : gmap K A) k v :
  m !! k = Some v -> msum f m = f v + msum f (delete k m).
Proof.
  intros Hk. unfold msum.
  rewrite <- (foldr_sum_perm f _ _ (map_to_list_delete m k v Hk)). reflexivity.
Qed.

Lemma msum_insert (f : A -> Z) (m : gmap K A) k v :
  msum f (<[k := v]> m) = f v + msum f (delete k m).
Proof.
  rewrite <- insert_delete_eq. apply msum_insert_new. apply lookup_delete_eq.
Qed.

Lemma msum_ext (f g : A -> Z) (m : gmap K A) :
  (forall k v, m !! k = Some v -> f v = g v) -> msum f m = msum g m.
Proof.
  induction m as [|k v m Hk IH] using map_ind; intros Hfg.
  - rewrite !msum_empty. reflexivity.
  - rewrite !msum_insert_new by done.
    rewrite (Hfg k v) by (apply lookup_insert_eq).
    rewrite IH; [reflexivity|].
    intros k' v' Hk'. apply (Hfg k'). rewrite lookup_insert_ne; [done|].
    intros ->. congruence.
Qed.

Lemma msum_nonneg (f : A -> Z) (m : gmap K A) :
  (forall k v, m !! k = Some v -> 0 <= f v) -> 0 <= msum f m.
Proof.
  induction m as [|k v m Hk IH] using map_ind; intros Hf.
  - rewrite msum_empty. lia.
  - rewrite msum_insert_new by done.
    assert (0 <= f v) by (apply (Hf k); apply lookup_insert_eq).
    assert (0 <= msum f m).
    { apply IH. intros k' v' Hk'. apply (Hf k'). rewrite lookup_insert_ne; [done|].
      intros ->. congruence. }
    lia.
Qed.
End MapSums.

(** ** Ticket lists of the approved purchases *)

Lemma concat_perm (l1 l2 : list (list Z)) : l1 ≡ₚ l2 -> concat l1 ≡ₚ concat l2.
Proof.
  induction 1 as [|x l l' _ IH|x y l|l l' l'' _ IH1 _ IH2]; simpl.
  - done.
  - by apply Permutation_app_head.
  - rewrite !app_assoc. apply Permutation_app_tail, Permutation_app_comm.
  - by etrans.
Qed.

Lemma approved_tickets_insert (m : gmap string purchase) k p :
  m !! k = None ->
  approved_tickets (<[k := p]> m) ≡ₚ default [] (p_tickets p) ++ approved_tickets m.
Proof.
  intros Hk. unfold approved_tickets.
  etrans; [apply concat_perm, Permutation_map, map_to_list_insert, Hk|]. done.
Qed.

Lemma approved_tickets_delete (m : gmap string purchase) k p :
  m !! k = Some p ->
  approved_tickets m ≡ₚ default [] (p_tickets p) ++ approved_tickets (delete k m).
Proof.
  intros Hk. rewrite <- (insert_delete_id m k p Hk) at 1.
  apply approved_tickets_insert, lookup_delete_eq.
Qed.

Lemma approved_tickets_empty : approved_tickets ∅ = [].
Proof. unfold approved_tickets. rewrite map_to_list_empty. reflexivity. Qed.

Lemma length_approved_tickets (m : gmap string purchase) :
  Z.of_nat (length (approved_tickets m)) =
  msum (fun p => Z.of_nat (length (default [] (p_tickets p)))) m.
Proof.
  unfold approved_tickets, msum. induction (map_to_list m) as [|kv l IH]; simpl.
  - reflexivity.
  - rewrite length_app. lia.
Qed.

(** Two different approved purchases, and the rest. *)
Lemma approved_tickets_two (m : gmap string purchase) k1 k2 p1 p2 :
  k1 <> k2 -> m !! k1 = Some p1 -> m !! k2 = Some p2 ->
  exists rest, approved_tickets m ≡ₚ
    default [] (p_tickets p1) ++ default [] (p_tickets p2) ++ rest.
Proof.
  intros Hne H1 H2.
  exists (approved_tickets (delete k2 (delete k1 m))).
  etrans; [apply (approved_tickets_delete _ _ _ H1)|].
  apply Permutation_app_head, approved_tickets_delete.
  rewrite lookup_delete_ne; done.
Qed.

(** ** Lists of ticket numbers *)

Lemma NoDup_map_on {A B} (f : A -> B) (l : list A) :
  (forall x y, x ∈ l -> y ∈ l -> f x = f y -> x = y) -> NoDup l -> NoDup (map f l).
Proof.
  induction l as [|a l IH]; intros Hinj Hnd; simpl; [constructor|].
  apply NoDup_cons in Hnd as [Hna Hnd]. constructor.
  - intros Hin. apply list_elem_of_In, in_map_iff in Hin as [x [Hfx Hx]].
    apply list_elem_of_In in Hx.
    assert (x = a) as -> by (apply Hinj; [right; done|left|done]).
    contradiction.
  - apply IH; [|done]. intros x y Hx Hy. apply Hinj; right; done.
Qed.

Lemma elem_of_py_range a b t : t ∈ py_range a b <-> a <= t < b.
Proof.
  unfold py_range. rewrite list_elem_of_In, in_map_iff. split.
  - intros [i [<- Hi]]. apply in_seq in Hi. lia.
  - intros Ht. exists (Z.to_nat (t - a)). split; [lia|]. apply in_seq. lia.
Qed.

Lemma NoDup_py_range a b : NoDup (py_range a b).
Proof.
  unfold py_range. apply NoDup_map_on; [intros; lia|].
  apply NoDup_ListNoDup, seq_NoDup.
Qed.

Lemma length_py_range a b : length (py_range a b) = Z.to_nat (b - a).
Proof. unfold py_range. rewrite length_map, length_seq. reflexivity. Qed.

(** [random.sample] on a duplicate-free population. *)
Lemma sample_at_spec (l : list Z) (q : Z) (idxs : list nat) :
  NoDup l -> sample_ok (length l) q idxs ->
  NoDup (sample_at l idxs) /\ Z.of_nat (length (sample_at l idxs)) = q /\
  (forall t, t ∈ sample_at l idxs -> t ∈ l).
Proof.
  intros Hl (Hnd & Hlen & Hlt). unfold sample_at.
  rewrite Forall_forall in Hlt. split; [|split].
  - apply NoDup_map_on; [|done].
    intros i j Hi Hj Heq. apply NoDup_ListNoDup in Hl.
    apply Hlt in Hi. apply Hlt in Hj.
    exact (proj1 (NoDup_nth l 0) Hl i j Hi Hj Heq).
  - rewrite length_map. done.
  - intros t Ht. apply list_elem_of_In, in_map_iff in Ht as [i [<- Hi]].
    apply list_elem_of_In, nth_In, Hlt, list_elem_of_In, Hi.
Qed.

Lemma py_remove_perm x l l' : py_remove x l = Some l' -> l ≡ₚ x :: l'.
Proof.
  revert l'. induction l as [|y l IH]; intros l' Hr; simpl in Hr; [done|].
  destruct (Z.eqb_spec x y) as [->|Hne].
  - injection Hr as <-. done.
  - destruct (py_remove x l) as [l1|] eqn:E; simpl in Hr; [|done].
    injection Hr as <-. rewrite (IH l1 eq_refl). apply perm_swap.
Qed.

Lemma py_remove_elem x l : x ∈ l -> exists l', py_remove x l = Some l'.
Proof.
  induction l as [|y l IH]; intros Hx; [by apply elem_of_nil in Hx|]. simpl.
  destruct (Z.eqb_spec x y) as [->|Hne]; [eauto|].
  apply elem_of_cons in Hx as [->|Hx]; [done|].
  destruct (IH Hx) as [l' ->]. simpl. eauto.
Qed.

Lemma remove_tickets_perm ts l r : remove_tickets ts l = inr r -> l ≡ₚ ts ++ r.
Proof.
  revert l. induction ts as [|t ts IH]; intros l Hr; simpl in Hr.
  - injection Hr as <-. done.
  - destruct (py_remove t l) as [l1|] eqn:E; [|done].
    rewrite (py_remove_perm _ _ _ E). simpl. apply perm_skip, IH, Hr.
Qed.

Lemma remove_tickets_ok ts l :
  NoDup ts -> (forall t, t ∈ ts -> t ∈ l) -> exists r, remove_tickets ts l = inr r.
Proof.
  revert l. induction ts as [|t ts IH]; intros l Hnd Hsub; simpl; [eauto|].
  apply NoDup_cons in Hnd as [Ht Hnd].
  destruct (py_remove_elem t l) as [l1 E]; [apply Hsub; left|].
  rewrite E. apply IH; [done|]. intros u Hu.
  assert (u ∈ t :: l1) as Hu' by (rewrite <- (py_remove_perm _ _ _ E); apply Hsub; by right).
  apply elem_of_cons in Hu' as [->|]; [contradiction|done].
Qed.

(** [sorted(set(l))] *)
Lemma elem_of_insert_uniq x y l : y ∈ insert_uniq x l <-> y = x \/ y ∈ l.
Proof.
  induction l as [|z l IH]; simpl.
  - set_solver.
  - destruct (Z.ltb_spec x z); [rewrite !elem_of_cons; tauto|].
    destruct (Z.eqb_spec x z) as [->|]; [rewrite !elem_of_cons; tauto|].
    rewrite !elem_of_cons, IH. tauto.
Qed.

Lemma elem_of_sorted_set y l : y ∈ sorted_set l <-> y ∈ l.
Proof.
  induction l as [|x l IH]; simpl; [done|].
  rewrite elem_of_insert_uniq, elem_of_cons, IH. done.
Qed.

Lemma insert_uniq_perm x l : x ∉ l -> insert_uniq x l ≡ₚ x :: l.
Proof.
  induction l as [|z l IH]; intros Hx; simpl; [done|].
  destruct (Z.ltb_spec x z); [done|].
  destruct (Z.eqb_spec x z) as [->|]; [destruct Hx; left|].
  rewrite IH by (intros Hin; apply Hx; by right). apply perm_swap.
Qed.

Lemma sorted_set_perm l : NoDup l -> sorted_set l ≡ₚ l.
Proof.
  induction l as [|x l IH]; intros Hnd; simpl; [done|].
  apply NoDup_cons in Hnd as [Hx Hnd].
  rewrite insert_uniq_perm.
  - by rewrite IH.
  - by rewrite elem_of_sorted_set.
Qed.

Lemma insert_uniq_sorted x l :
  StronglySorted Z.lt l -> StronglySorted Z.lt (insert_uniq x l).
Proof.
  induction l as [|z l IH]; intros Hs; simpl.
  - repeat constructor.
  - apply StronglySorted_inv in Hs as [Hs Hz].
    destruct (Z.ltb_spec x z).
    + constructor; [by constructor|]. constructor; [done|].
      eapply Forall_impl; [exact Hz|]. simpl. lia.
    + destruct (Z.eqb_spec x z) as [->|]; [by constructor|].
      constructor; [by apply IH|].
      apply List.Forall_forall. intros y Hy.
      apply list_elem_of_In, elem_of_insert_uniq in Hy.
      destruct Hy as [->|Hy]; [lia|].
      rewrite List.Forall_forall in Hz. apply Hz, list_elem_of_In, Hy.
Qed.

Lemma sorted_set_sorted l : StronglySorted Z.lt (sorted_set l).
Proof.
  induction l as [|x l IH]; simpl; [constructor|]. by apply insert_uniq_sorted.
Qed.

Lemma strongly_sorted_NoDup l : StronglySorted Z.lt l -> NoDup l.
Proof.
  induction 1 as [|x l _ IH Hf]; constructor; [|done].
  intros Hx. rewrite List.Forall_forall in Hf.
  specialize (Hf x (proj1 (list_elem_of_In _ _) Hx)). lia.
Qed.

Lemma elem_of_concat_map {B} (g : B -> list Z) (l : list B) t :
  t ∈ concat (map g l) <-> exists x, x ∈ l /\ t ∈ g x.
Proof.
  induction l as [|x l IH]; simpl.
  - split; [by intros ?%elem_of_nil|]. intros (? & ?%elem_of_nil & _). done.
  - rewrite elem_of_app, IH. split.
    + intros [Ht|(y & Hy & Ht)]; [exists x; split; [left|done]|exists y; split; [right|]]; done.
    + intros (y & Hy & Ht). apply elem_of_cons in Hy as [->|Hy]; [by left|right; eauto].
Qed.

Lemma elem_of_approved_tickets (m : gmap string purchase) t :
  t ∈ approved_tickets m <->
  exists k p, m !! k = Some p /\ t ∈ default [] (p_tickets p).
Proof.
  unfold approved_tickets. rewrite elem_of_concat_map. split.
  - intros ([k p] & Hkp & Ht). apply elem_of_map_to_list in Hkp. eauto.
  - intros (k & p & Hkp & Ht). exists (k, p). split; [|done].
    by apply elem_of_map_to_list.
Qed.

(** ** The ticket invariant along every run *)

Lemma ticket_inv_initial N card : ticket_inv N (initial_store N card).
Proof.
  split; simpl.
  - rewrite approved_tickets_empty, app_nil_r. done.
  - intros k _. apply lookup_empty.
Qed.

Lemma ticket_inv_NoDup N s :
  ticket_inv N s -> NoDup (available_tickets s ++ approved_tickets (approved s)).
Proof. intros [HI _]. rewrite HI. apply NoDup_py_range. Qed.

Lemma ticket_inv_step create_ok N s s' :
  step create_ok s s' -> ticket_inv N s -> ticket_inv N s'.
Proof.
  intros Hst Hinv. pose proof (ticket_inv_NoDup N s Hinv) as Hnd.
  destruct Hinv as [HI1 HI2].
  destruct Hst as [now_iso uid uname fname phone s
                  |pid now_iso uid uname fname phone qty price rid rkind s Hp Ha Hr _
                  |now_iso idxs pid s Hsample
                  |now_iso pid s
                  |now_iso pid s].
  - (* register_user *)
    unfold register_user. destruct (users s !! uid); split; done.
  - (* create_pending_purchase *)
    split; [done|]. simpl. intros k [p' Hk].
    destruct (decide (pid = k)) as [<-|Hne]; [done|].
    rewrite lookup_insert_ne in Hk by done. apply HI2. eauto.
  - (* approve_purchase *)
    unfold approve_purchase.
    destruct (pending s !! pid) as [p|] eqn:Hp; [|split; done].
    assert (approved s !! pid = None) as HnA by (apply HI2; eauto).
    destruct (Z.ltb_spec (Z.of_nat (length (available_tickets s))) (quantity p)).
    { split; [done|]. simpl. intros k [p' Hk].
      destruct (decide (pid = k)) as [<-|Hne]; [done|].
      rewrite lookup_insert_ne, lookup_delete_ne in Hk by done. apply HI2. eauto. }
    destruct (Z.ltb_spec (quantity p) 0).
    { split; [done|]. simpl. intros k [p' Hk].
      destruct (decide (pid = k)) as [<-|Hne]; [by rewrite lookup_delete_eq in Hk|].
      rewrite lookup_delete_ne in Hk by done. apply HI2. eauto. }
    apply NoDup_app in Hnd as (Hnd_av & _ & _).
    destruct (sample_at_spec _ _ _ Hnd_av (Hsample p eq_refl ltac:(lia)))
      as (Hnd_ts & _ & Hsub).
    destruct (remove_tickets_ok _ _ Hnd_ts Hsub) as [r Hrem].
    pose proof (remove_tickets_perm _ _ _ Hrem) as Hperm.
    simpl. rewrite Hrem. split; simpl.
    + rewrite approved_tickets_insert by done. simpl.
      etrans; [|exact HI1].
      set (ts := sample_at (available_tickets s) idxs) in *.
      etrans; [|apply Permutation_app_tail; symmetry; exact Hperm].
      rewrite !app_assoc. apply Permutation_app_tail, Permutation_app_comm.
    + intros k [p' Hk].
      destruct (decide (pid = k)) as [<-|Hne]; [by rewrite lookup_delete_eq in Hk|].
      rewrite lookup_delete_ne in Hk by done. rewrite lookup_insert_ne by done.
      apply HI2. eauto.
  - (* reject_purchase *)
    unfold reject_purchase.
    destruct (pending s !! pid) as [p|] eqn:Hp; [|split; done].
    split; simpl; [done|]. intros k [p' Hk].
    destruct (decide (pid = k)) as [<-|Hne]; [by rewrite lookup_delete_eq in Hk|].
    rewrite lookup_delete_ne in Hk by done. apply HI2. eauto.
  - (* cancel_approved_purchase *)
    unfold cancel_approved_purchase.
    destruct (approved s !! pid) as [p|] eqn:Hp; [|split; done].
    pose proof (approved_tickets_delete _ _ _ Hp) as Hdel.
    split; simpl.
    + rewrite Hdel in HI1, Hnd. rewrite app_assoc in Hnd.
      apply NoDup_app in Hnd as (Hnd1 & _ & _).
      rewrite sorted_set_perm by done. rewrite <- app_assoc. done.
    + intros k Hk.
      destruct (decide (pid = k)) as [<-|Hne]; [apply lookup_delete_eq|].
      rewrite lookup_delete_ne by done. by apply HI2.
Qed.

Lemma ticket_inv_rtc create_ok N s s' :
  rtc (step create_ok) s s' -> ticket_inv N s -> ticket_inv N s'.
Proof.
  induction 1 as [|x y z Hxy _ IH]; [done|]. intros Hx.
  apply IH. by apply (ticket_inv_step create_ok N x y).
Qed.

Lemma ticket_inv_reachable create_ok N card s :
  reachable create_ok N card s -> ticket_inv N s.
Proof. intros Hr. apply (ticket_inv_rtc create_ok N _ _ Hr), ticket_inv_initial. Qed.

(** ** Filtering a user's ticket list *)

Lemma existsb_eqb_elem ts t : existsb (Z.eqb t) ts = true <-> t ∈ ts.
Proof.
  rewrite existsb_exists, list_elem_of_In. split.
  - intros (x & Hx & E). apply Z.eqb_eq in E. by subst.
  - intros H. exists t. split; [done|apply Z.eqb_refl].
Qed.

Lemma elem_of_drop_tickets ts b t : t ∈ drop_tickets ts b <-> t ∈ b /\ t ∉ ts.
Proof.
  unfold drop_tickets. rewrite list_elem_of_filter, <- (existsb_eqb_elem ts t).
  destruct (existsb (Z.eqb t) ts); simpl; split; intros [H1 H2]; try done; split; auto.
Qed.

(** ** Revenue bookkeeping *)

Lemma msum_update {K A : Type} `{Countable K} (f : A -> Z) (m : gmap K A) k v v' :
  m !! k = Some v -> msum f (<[k := v']> m) = f v' - f v + msum f m.
Proof. intros Hk. rewrite msum_insert, (msum_delete f m k v Hk). lia. Qed.

Lemma msum_zero {K A : Type} `{Countable K} (f : A -> Z) (m : gmap K A) :
  (forall k v, m !! k = Some v -> f v = 0) -> msum f m = 0.
Proof.
  induction m as [|k v m Hk IH] using map_ind; intros Hf; [apply msum_empty|].
  rewrite msum_insert_new by done. rewrite (Hf k v) by apply lookup_insert_eq.
  rewrite IH; [done|]. intros k' v' Hk'. apply (Hf k').
  rewrite lookup_insert_ne; [done|]. intros ->. congruence.
Qed.

Lemma user_amounts_insert_new u (m : gmap string purchase) k p :
  m !! k = None ->
  user_amounts u (<[k := p]> m) =
    (if Z.eqb (p_user_id p) u then amount p else 0) + user_amounts u m.
Proof. intros Hk. unfold user_amounts. by rewrite msum_insert_new. Qed.

Lemma user_amounts_delete u (m : gmap string purchase) k p :
  m !! k = Some p ->
  user_amounts u m =
    (if Z.eqb (p_user_id p) u then amount p else 0) + user_amounts u (delete k m).
Proof.
  intros Hk. unfold user_amounts.
  exact (msum_delete (fun p => if Z.eqb (p_user_id p) u then amount p else 0) m k p Hk).
Qed.

Lemma user_amounts_none u (m : gmap string purchase) :
  (forall k p, m !! k = Some p -> p_user_id p <> u) -> user_amounts u m = 0.
Proof.
  intros Hm. apply msum_zero. intros k p Hk. specialize (Hm k p Hk).
  destruct (Z.eqb_spec (p_user_id p) u); [done|reflexivity].
Qed.

Lemma user_amounts_nonneg u (m : gmap string purchase) :
  (forall k p, m !! k = Some p -> 0 <= amount p) -> 0 <= user_amounts u m.
Proof.
  intros Hm. apply msum_nonneg. intros k p Hk.
  destruct (Z.eqb _ _); [by apply (Hm k)|lia].
Qed.

(** Replacing a user record by one with the same [total_spent]. *)
Lemma spent_preserving_update (us : gmap Z user_record) (A : gmap string purchase)
    uid r r' :
  us !! uid = Some r -> total_spent r' = total_spent r ->
  (forall u r0, us !! u = Some r0 -> total_spent r0 = user_amounts u A) ->
  msum total_spent (<[uid := r']> us) = msum total_spent us /\
  (forall u r0, <[uid := r']> us !! u = Some r0 -> total_spent r0 = user_amounts u A).
Proof.
  intros Hu Hr HA. split.
  - rewrite (msum_update _ _ _ r _ Hu). lia.
  - intros u r0 Hl. destruct (decide (uid = u)) as [<-|Hne].
    + rewrite lookup_insert_eq in Hl. injection Hl as <-. rewrite Hr. by apply HA.
    + rewrite lookup_insert_ne in Hl by done. by apply HA.
Qed.

Lemma pending_delete_disjoint (P A : gmap string purchase) pid :
  (forall k, is_Some (P !! k) -> A !! k = None) ->
  (forall k, is_Some (delete pid P !! k) -> A !! k = None).
Proof.
  intros HPA k [p' Hk]. apply lookup_delete_Some in Hk as [_ Hk]. apply HPA. eauto.
Qed.

Lemma pending_delete_nonneg (P : gmap string purchase) pid :
  (forall k p, P !! k = Some p -> 0 <= amount p) ->
  (forall k p, delete pid P !! k = Some p -> 0 <= amount p).
Proof. intros HP k p Hk. apply lookup_delete_Some in Hk as [_ Hk]. by apply (HP k). Qed.

Lemma revenue_inv_initial N card : revenue_inv (initial_store N card).
Proof.
  split; [simpl; by rewrite !msum_empty|].
  repeat split; simpl; intros *; rewrite ?lookup_empty; try done.
Qed.

Lemma revenue_inv_step s s' :
  step nonneg_create s s' -> revenue_inv s -> revenue_inv s'.
Proof.
  intros Hst (R1 & R2 & R3 & R4 & R5 & R6).
  destruct Hst as [now_iso uid uname fname phone s
                  |pid now_iso uid uname fname phone qty price rid rkind s Hp Ha Hr [Hq Hpr]
                  |now_iso idxs pid s _
                  |now_iso pid s
                  |now_iso pid s].
  - (* register_user *)
    unfold register_user. destruct (users s !! uid) as [r|] eqn:Hu.
    + repeat split; simpl; try done.
      * rewrite (msum_update _ _ _ r _ Hu). simpl. lia.
      * refine (proj2 (spent_preserving_update _ _ _ r _ Hu _ R2)). reflexivity.
      * intros k p Hk. rewrite lookup_insert_is_Some'. right. by apply (R3 k).
    + repeat split; simpl; try done.
      * rewrite msum_insert_new by done. simpl. lia.
      * intros u r0 Hl. destruct (decide (uid = u)) as [<-|Hne].
        { rewrite lookup_insert_eq in Hl. injection Hl as <-. simpl.
          symmetry. apply user_amounts_none. intros k p Hk Heq.
          destruct (R3 k p Hk) as [x Hx]. congruence. }
        rewrite lookup_insert_ne in Hl by done. by apply R2.
      * intros k p Hk. rewrite lookup_insert_is_Some'. right. by apply (R3 k).
  - (* create_pending_purchase *)
    repeat split; simpl; try done.
    + intros k p' Hk. destruct (decide (pid = k)) as [<-|Hne].
      * rewrite lookup_insert_eq in Hk. injection Hk as <-. simpl.
        by apply Z.mul_nonneg_nonneg.
      * rewrite lookup_insert_ne in Hk by done. by apply (R5 k).
    + intros k [p' Hk]. destruct (decide (pid = k)) as [<-|Hne]; [done|].
      rewrite lookup_insert_ne in Hk by done. apply R6. eauto.
  - (* approve_purchase *)
    unfold approve_purchase.
    destruct (pending s !! pid) as [p|] eqn:Hp; [|by repeat split].
    assert (approved s !! pid = None) as HnA by (apply R6; eauto).
    destruct (Z.ltb_spec (Z.of_nat (length (available_tickets s))) (quantity p)).
    { simpl. rewrite insert_delete_eq, insert_id by done. by repeat split. }
    destruct (Z.ltb_spec (quantity p) 0).
    { repeat split; simpl; try done.
      - by apply pending_delete_nonneg.
      - by apply pending_delete_disjoint. }
    simpl. destruct (remove_tickets _ _) as [partial|av'].
    { repeat split; simpl; try done.
      - by apply pending_delete_nonneg.
      - by apply pending_delete_disjoint. }
    set (ts := sample_at (available_tickets s) idxs).
    set (uid := p_user_id p).
    set (r := default (user_from_purchase p now_iso) (users s !! uid)).
    assert (total_spent r = user_amounts uid (approved s)) as Hr.
    { subst r. destruct (users s !! uid) as [r0|] eqn:Hu; simpl.
      - by apply R2.
      - symmetry. apply user_amounts_none. intros k p0 Hk Heq.
        destruct (R3 k p0 Hk) as [x Hx]. congruence. }
    assert (msum total_spent (users s) =
            total_spent r + msum total_spent (delete uid (users s))) as Hus.
    { subst r. destruct (users s !! uid) as [r0|] eqn:Hu; simpl.
      - by apply msum_delete.
      - rewrite delete_id by done. lia. }
    assert (0 <= amount p) by (by apply (R5 pid)).
    repeat split; simpl.
    + rewrite msum_insert, msum_insert_new by done. simpl. lia.
    + intros u r0 Hl. destruct (decide (uid = u)) as [<-|Hne].
      * rewrite lookup_insert_eq in Hl. injection Hl as <-. simpl.
        rewrite user_amounts_insert_new by done. simpl. rewrite Z.eqb_refl. lia.
      * rewrite lookup_insert_ne in Hl by done.
        rewrite user_amounts_insert_new by done. simpl.
        destruct (Z.eqb_spec (p_user_id p) u); [done|]. rewrite (R2 u r0 Hl). lia.
    + intros k p0 Hk. rewrite lookup_insert_is_Some'.
      destruct (decide (pid = k)) as [<-|Hne].
      * rewrite lookup_insert_eq in Hk. injection Hk as <-. by left.
      * rewrite lookup_insert_ne in Hk by done. right. by apply (R3 k).
    + intros k p0 Hk. destruct (decide (pid = k)) as [<-|Hne].
      * rewrite lookup_insert_eq in Hk. injection Hk as <-. done.
      * rewrite lookup_insert_ne in Hk by done. by apply (R4 k).
    + by apply pending_delete_nonneg.
    + intros k [p' Hk].
      destruct (decide (pid = k)) as [<-|Hne]; [by rewrite lookup_delete_eq in Hk|].
      rewrite lookup_delete_ne in Hk by done. rewrite lookup_insert_ne by done.
      apply R6. eauto.
  - (* reject_purchase *)
    unfold reject_purchase.
    destruct (pending s !! pid) as [p|] eqn:Hp; [|by repeat split].
    simpl. destruct (users s !! p_user_id p) as [r|] eqn:Hu.
    + repeat split; simpl; try done.
      * rewrite (msum_update _ _ _ r _ Hu). simpl. lia.
      * refine (proj2 (spent_preserving_update _ _ _ r _ Hu _ R2)). reflexivity.
      * intros k p0 Hk. rewrite lookup_insert_is_Some'. right. by apply (R3 k).
      * by apply pending_delete_nonneg.
      * by apply pending_delete_disjoint.
    + repeat split; simpl; try done.
      * by apply pending_delete_nonneg.
      * by apply pending_delete_disjoint.
  - (* cancel_approved_purchase *)
    unfold cancel_approved_purchase.
    destruct (approved s !! pid) as [p|] eqn:Hp; [|by repeat split].
    destruct (R3 pid p Hp) as [r Hu]. simpl. rewrite Hu.
    pose proof (user_amounts_delete (p_user_id p) _ _ _ Hp) as Hdel.
    rewrite Z.eqb_refl in Hdel.
    assert (0 <= user_amounts (p_user_id p) (delete pid (approved s))).
    { apply user_amounts_nonneg. intros k p0 Hk.
      apply lookup_delete_Some in Hk as [_ Hk]. by apply (R4 k). }
    pose proof (R2 _ r Hu) as Hr.
    repeat split; simpl.
    + rewrite (msum_update _ _ _ r _ Hu). rewrite (msum_delete amount _ _ _ Hp) in R1. simpl. lia.
    + intros u r0 Hl. destruct (decide (p_user_id p = u)) as [<-|Hne].
      * rewrite lookup_insert_eq in Hl. injection Hl as <-. simpl. lia.
      * rewrite lookup_insert_ne in Hl by done.
        rewrite (R2 u r0 Hl), (user_amounts_delete u _ _ _ Hp).
        destruct (Z.eqb_spec (p_user_id p) u); [done|]. lia.
    + intros k p0 Hk. apply lookup_delete_Some in Hk as [_ Hk].
      rewrite lookup_insert_is_Some'. right. by apply (R3 k).
    + intros k p0 Hk. apply lookup_delete_Some in Hk as [_ Hk]. by apply (R4 k).
    + done.
    + intros k Hk. destruct (decide (pid = k)) as [<-|Hne]; [apply lookup_delete_eq|].
      rewrite lookup_delete_ne by done. by apply R6.
Qed.

Lemma revenue_inv_rtc s s' :
  rtc (step nonneg_create) s s' -> revenue_inv s -> revenue_inv s'.
Proof.
  induction 1 as [|x y z Hxy _ IH]; [done|]. intros Hx.
  apply IH. by apply (revenue_inv_step x y).
Qed.

Lemma revenue_inv_reachable N card s :
  reachable nonneg_create N card s -> revenue_inv s.
Proof. intros Hr. apply (revenue_inv_rtc _ _ Hr), revenue_inv_initial. Qed.

(** ** Formatting plain templates *)




















(** ** [str.strip] on UTF-8 text *)

Lemma list_strong_ind {A} (P : list A -> Prop) :
  (forall cs, (forall cs', (length cs' < length cs)%nat -> P cs') -> P cs) -> forall cs, P cs.
Proof.
  intros H cs. remember (length cs) as n eqn:En. revert cs En.
  induction n as [n IH] using lt_wf_ind. intros cs ->. apply H.
  intros cs' Hlt. by apply (IH (length cs')).
Qed.

Lemma is_py_space_range c : is_py_space c = true -> (Ascii.nat_of_ascii c <= 32)%nat.
Proof.
  unfold is_py_space. intros H.
  apply orb_prop in H as [H|H]; apply andb_prop in H as [_ H]; apply Nat.leb_le in H; lia.
Qed.

Lemma space2_range c1 c2 :
  space2 c1 c2 = true ->
  Ascii.nat_of_ascii c1 = 194%nat /\ (Ascii.nat_of_ascii c2 = 133%nat \/ Ascii.nat_of_ascii c2 = 160%nat).
Proof.
  unfold space2. intros H. apply andb_prop in H as [H1 H2]. apply Nat.eqb_eq in H1.
  split; [done|]. apply orb_prop in H2 as [H2|H2]; apply Nat.eqb_eq in H2; auto.
Qed.

Lemma space3_range c1 c2 c3 :
  space3 c1 c2 c3 = true ->
  (225 <= Ascii.nat_of_ascii c1 /\ 128 <= Ascii.nat_of_ascii c2 <= 154 /\
   128 <= Ascii.nat_of_ascii c3)%nat.
Proof.
  unfold space3. intros H.
  repeat (apply orb_prop in H as [H|H]); repeat (apply andb_prop in H as [H ?]);
    repeat match goal with
           | Hn : Nat.eqb _ _ = true |- _ => apply Nat.eqb_eq in Hn
           | Hn : Nat.leb _ _ = true |- _ => apply Nat.leb_le in Hn
           | Hn : (_ || _)%bool = true |- _ => apply orb_prop in Hn as [Hn|Hn]
           | Hn : (_ && _)%bool = true |- _ => apply andb_prop in Hn as [Hn ?]
           end; lia.
Qed.

(** Byte ranges of the whitespace encodings, for [lia]. *)
Local Ltac space_range :=
  repeat match goal with
         | H : is_py_space _ = true |- _ => apply is_py_space_range in H
         | H : space2 _ _ = true |- _ => apply space2_range in H as [? [?|?]]
         | H : space3 _ _ _ = true |- _ => apply space3_range in H as [? [? ?]]
         end; lia.

Lemma space2_first c1 c2 : space2 c1 c2 = true -> is_py_space c1 = false.
Proof. intros H. apply Bool.not_true_iff_false. intros H'. space_range. Qed.

Lemma space3_first c1 c2 c3 :
  space3 c1 c2 c3 = true -> is_py_space c1 = false /\ space2 c1 c2 = false.
Proof. intros H. split; apply Bool.not_true_iff_false; intros H'; space_range. Qed.

Lemma space2_rev_first c1 c2 : space2 c2 c1 = true -> is_py_space c1 = false.
Proof. intros H. apply Bool.not_true_iff_false. intros H'. space_range. Qed.

Lemma space3_rev_first c1 c2 c3 :
  space3 c3 c2 c1 = true -> is_py_space c1 = false /\ space2 c2 c1 = false.
Proof. intros H. split; apply Bool.not_true_iff_false; intros H'; space_range. Qed.

Section StripFront.
Variables (sp2 : ascii -> ascii -> bool) (sp3 : ascii -> ascii -> ascii -> bool).
Hypothesis Hsp2 : forall a b, sp2 a b = true -> is_py_space a = false.
Hypothesis Hsp3 : forall a b c, sp3 a b c = true -> is_py_space a = false /\ sp2 a b = false.

Lemma strip_front_suffix cs : exists pre, cs = pre ++ strip_front sp2 sp3 cs.
Proof.
  induction cs as [cs IH] using list_strong_ind.
  destruct cs as [|c1 rest1]; [by exists []|]. cbn [strip_front].
  destruct (is_py_space c1).
  { destruct (IH rest1) as [pre Hp]; [simpl; lia|]. exists (c1 :: pre). cbn [app]. by rewrite <- Hp. }
  destruct rest1 as [|c2 rest2]; [by exists []|].
  destruct (sp2 c1 c2).
  { destruct (IH rest2) as [pre Hp]; [simpl; lia|]. exists (c1 :: c2 :: pre). cbn [app]. by rewrite <- Hp. }
  destruct rest2 as [|c3 rest3]; [by exists []|].
  destruct (sp3 c1 c2 c3); [|by exists []].
  destruct (IH rest3) as [pre Hp]; [simpl; lia|]. exists (c1 :: c2 :: c3 :: pre). cbn [app]. by rewrite <- Hp.
Qed.

Lemma strip_front_length cs : (length (strip_front sp2 sp3 cs) <= length cs)%nat.
Proof.
  destruct (strip_front_suffix cs) as [pre Hp].
  rewrite Hp at 2. rewrite length_app. lia.
Qed.

Lemma strip_front_skip2 a b cs : sp2 a b = true -> strip_front sp2 sp3 (a :: b :: cs) = strip_front sp2 sp3 cs.
Proof. intros H. cbn [strip_front]. by rewrite (Hsp2 a b H), H. Qed.

Lemma strip_front_skip3 a b c cs :
  sp3 a b c = true -> strip_front sp2 sp3 (a :: b :: c :: cs) = strip_front sp2 sp3 cs.
Proof. intros H. destruct (Hsp3 a b c H) as [E1 E2]. cbn [strip_front]. by rewrite E1, E2, H. Qed.

Lemma strip_front_idem cs : strip_front sp2 sp3 (strip_front sp2 sp3 cs) = strip_front sp2 sp3 cs.
Proof.
  induction cs as [cs IH] using list_strong_ind.
  destruct cs as [|c1 rest1]; [done|]. cbn [strip_front].
  destruct (is_py_space c1) eqn:E1; [apply IH; simpl; lia|].
  destruct rest1 as [|c2 rest2]; [cbn [strip_front]; by rewrite E1|].
  destruct (sp2 c1 c2) eqn:E2; [apply IH; simpl; lia|].
  destruct rest2 as [|c3 rest3]; [cbn [strip_front]; by rewrite E1, E2|].
  destruct (sp3 c1 c2 c3) eqn:E3; [apply IH; simpl; lia|].
  cbn [strip_front]. by rewrite E1, E2, E3.
Qed.

End StripFront.

Lemma space_char_nonempty e : space_char e = true -> e <> [].
Proof. by destruct e. Qed.

Lemma py_spaces_app a b : py_spaces a -> py_spaces b -> py_spaces (a ++ b).
Proof.
  induction 1 as [|e cs He Hcs IH]; intros Hb; [done|].
  rewrite <- app_assoc. constructor; auto.
Qed.

Lemma py_spaces_one e : space_char e = true -> py_spaces e.
Proof. intros H. rewrite <- (app_nil_r e). by constructor; [|constructor]. Qed.

Lemma lstrip_skip_char e cs : space_char e = true -> py_lstrip (e ++ cs) = py_lstrip cs.
Proof.
  unfold py_lstrip. destruct e as [|c1 [|c2 [|c3 [|c4 e]]]]; simpl; intros H; try done.
  - by rewrite H.
  - by apply strip_front_skip2; [exact space2_first|].
  - by apply strip_front_skip3; [exact space3_first|].
Qed.

Lemma lstrip_spaces a cs : py_spaces a -> py_lstrip (a ++ cs) = py_lstrip cs.
Proof.
  induction 1 as [|e a He Ha IH]; [done|].
  rewrite <- app_assoc, lstrip_skip_char by done. exact IH.
Qed.

Lemma lstrip_split cs : exists pre, cs = pre ++ py_lstrip cs /\ py_spaces pre.
Proof.
  unfold py_lstrip. induction cs as [cs IH] using list_strong_ind.
  destruct cs as [|c1 rest1]; [exists []; split; [done|constructor]|]. cbn [strip_front].
  destruct (is_py_space c1) eqn:E1.
  { destruct (IH rest1) as (pre & Hp & Hs); [simpl; lia|]. exists ([c1] ++ pre).
    split; [cbn [app]; by rewrite <- Hp|]. apply py_spaces_app; [by apply py_spaces_one|done]. }
  destruct rest1 as [|c2 rest2]; [exists []; split; [done|constructor]|].
  destruct (space2 c1 c2) eqn:E2.
  { destruct (IH rest2) as (pre & Hp & Hs); [simpl; lia|]. exists ([c1; c2] ++ pre).
    split; [cbn [app]; by rewrite <- Hp|]. apply py_spaces_app; [by apply py_spaces_one|done]. }
  destruct rest2 as [|c3 rest3]; [exists []; split; [done|constructor]|].
  destruct (space3 c1 c2 c3) eqn:E3; [|exists []; split; [done|constructor]].
  destruct (IH rest3) as (pre & Hp & Hs); [simpl; lia|]. exists ([c1; c2; c3] ++ pre).
  split; [cbn [app]; by rewrite <- Hp|]. apply py_spaces_app; [by apply py_spaces_one|done].
Qed.

Lemma rstrip_rev_skip_char e cs :
  space_char e = true ->
  strip_front (fun c2 c1 => space2 c1 c2) (fun c3 c2 c1 => space3 c1 c2 c3) (rev e ++ cs) =
  strip_front (fun c2 c1 => space2 c1 c2) (fun c3 c2 c1 => space3 c1 c2 c3) cs.
Proof.
  destruct e as [|c1 [|c2 [|c3 [|c4 e]]]]; cbn [space_char rev app]; intros H; try done.
  - cbn [strip_front]. by rewrite H.
  - apply strip_front_skip2; [intros a b; apply space2_rev_first|exact H].
  - apply strip_front_skip3; [intros a b c; apply space3_rev_first|exact H].
Qed.

Lemma rstrip_split cs : exists post, cs = py_rstrip cs ++ post /\ py_spaces post.
Proof.
  unfold py_rstrip. pattern cs at 1. rewrite <- (rev_involutive cs). generalize (rev cs) as rs.
  clear cs. intros rs. induction rs as [rs IH] using list_strong_ind.
  destruct rs as [|c1 rest1]; [exists []; split; [done|constructor]|]. cbn [strip_front].
  destruct (is_py_space c1) eqn:E1.
  { destruct (IH rest1) as (post & Hp & Hs); [simpl; lia|]. exists (post ++ [c1]).
    split; [simpl; rewrite Hp, app_assoc; reflexivity|].
    apply py_spaces_app; [done|by apply py_spaces_one]. }
  destruct rest1 as [|c2 rest2]; [exists []; split; [by rewrite app_nil_r|constructor]|].
  destruct (space2 c2 c1) eqn:E2.
  { destruct (IH rest2) as (post & Hp & Hs); [simpl; lia|]. exists (post ++ [c2; c1]).
    split; [simpl; rewrite Hp, <- !app_assoc; reflexivity|].
    apply py_spaces_app; [done|by apply py_spaces_one]. }
  destruct rest2 as [|c3 rest3]; [exists []; split; [by rewrite app_nil_r|constructor]|].
  destruct (space3 c3 c2 c1) eqn:E3; [|exists []; split; [by rewrite app_nil_r|constructor]].
  destruct (IH rest3) as (post & Hp & Hs); [simpl; lia|]. exists (post ++ [c3; c2; c1]).
  split; [simpl; rewrite Hp, <- !app_assoc; reflexivity|].
  apply py_spaces_app; [done|by apply py_spaces_one].
Qed.

Lemma rstrip_skip_char e cs : space_char e = true -> py_rstrip (cs ++ e) = py_rstrip cs.
Proof.
  intros H. unfold py_rstrip. rewrite rev_app_distr. f_equal. by apply rstrip_rev_skip_char.
Qed.

Lemma lstrip_idem cs : py_lstrip (py_lstrip cs) = py_lstrip cs.
Proof. apply strip_front_idem. Qed.

Lemma rstrip_idem cs : py_rstrip (py_rstrip cs) = py_rstrip cs.
Proof.
  unfold py_rstrip. rewrite rev_involutive. f_equal.
  apply strip_front_idem.
Qed.

Lemma lstrip_length cs : (length (py_lstrip cs) <= length cs)%nat.
Proof. destruct (lstrip_split cs) as (pre & Hp & _). rewrite Hp at 2. rewrite length_app. lia. Qed.

Lemma rstrip_length cs : (length (py_rstrip cs) <= length cs)%nat.
Proof. destruct (rstrip_split cs) as (post & Hp & _). rewrite Hp at 2. rewrite length_app. lia. Qed.

(** The stripped text, as a list of bytes. *)
Definition strip_bytes (cs : list ascii) : list ascii := py_rstrip (py_lstrip cs).

Lemma py_strip_bytes text : list_ascii_of_string (py_strip text) = strip_bytes (list_ascii_of_string text).
Proof. unfold py_strip, strip_bytes. apply list_ascii_of_string_of_list_ascii. Qed.

Lemma strip_bytes_split cs :
  exists pre post, cs = pre ++ strip_bytes cs ++ post /\ py_spaces pre /\ py_spaces post.
Proof.
  destruct (lstrip_split cs) as (pre & Hp & Hpre).
  destruct (rstrip_split (py_lstrip cs)) as (post & Hq & Hpost).
  exists pre, post. unfold strip_bytes. rewrite <- Hq. auto.
Qed.

Lemma strip_bytes_no_lead cs e rest : strip_bytes cs = e ++ rest -> space_char e = false.
Proof.
  intros Hr. apply Bool.not_true_iff_false. intros He.
  destruct (rstrip_split (py_lstrip cs)) as (post & Hq & _).
  fold (strip_bytes cs) in Hq. rewrite Hr, <- app_assoc in Hq.
  pose proof (lstrip_idem cs) as Hi. rewrite Hq, lstrip_skip_char in Hi by done.
  pose proof (lstrip_length (rest ++ post)) as Hl. rewrite Hi in Hl.
  rewrite !length_app in Hl. destruct e; [done|]. simpl in Hl. lia.
Qed.

Lemma strip_bytes_no_trail cs e rest : strip_bytes cs = rest ++ e -> space_char e = false.
Proof.
  intros Hr. apply Bool.not_true_iff_false. intros He.
  pose proof (rstrip_idem (py_lstrip cs)) as Hi. fold (strip_bytes cs) in Hi.
  rewrite Hr, rstrip_skip_char in Hi by done.
  pose proof (rstrip_length rest) as Hl. rewrite Hi in Hl.
  rewrite !length_app in Hl. destruct e; [done|]. simpl in Hl. lia.
Qed.

Lemma strip_bytes_spaces cs : py_spaces cs -> strip_bytes cs = [].
Proof.
  intros H. unfold strip_bytes. rewrite <- (app_nil_r cs), lstrip_spaces by done. reflexivity.
Qed.

Lemma strip_bytes_nil cs : strip_bytes cs = [] <-> py_spaces cs.
Proof.
  split; [|apply strip_bytes_spaces].
  intros H. destruct (strip_bytes_split cs) as (pre & post & Hc & Hpre & Hpost).
  rewrite H in Hc. simpl in Hc. rewrite Hc. by apply py_spaces_app.
Qed.

Lemma py_strip_empty text : String.eqb (py_strip text) "" = true <-> py_spaces (list_ascii_of_string text).
Proof.
  rewrite String.eqb_eq, <- strip_bytes_nil, <- py_strip_bytes.
  split; [intros ->; done|]. destruct (py_strip text); [done|discriminate].
Qed.

















(** ** The scenario is a run *)

Lemma scenario_s3_reachable : reachable nonneg_create 3 None Scenario.s3.
Proof.
  unfold reachable.
  apply (rtc_l _ _ Scenario.s1); [|apply (rtc_l _ _ Scenario.s2); [|apply rtc_once]].
  - apply step_create; [reflexivity..|split; lia].
  - apply step_create; [reflexivity..|split; lia].
  - apply step_approve. intros p Hp Hq. vm_compute in Hp. injection Hp as <-.
    vm_compute. split; [|split]; [repeat constructor; set_solver|reflexivity|repeat constructor; lia].
Qed.

Lemma scenario_s6_reachable : reachable nonneg_create 3 None Scenario.s6.
Proof.
  unfold reachable. etrans; [apply scenario_s3_reachable|].
  apply (rtc_l _ _ Scenario.s4); [|apply (rtc_l _ _ Scenario.s5); [|apply rtc_once]].
  - apply step_approve. intros p Hp Hq. vm_compute in Hp. injection Hp as <-.
    exfalso. destruct Hq as [_ Hq]. vm_compute in Hq. now apply Hq.
  - apply step_reject.
  - apply step_cancel.
Qed.

(** ** C1: ticket conservation *)

(** C1.  Along every run of [register_user], [create_pending_purchase],
    [approve_purchase], [reject_purchase] and [cancel_approved_purchase]
    from the initial store with pool [1..N]: the pool size plus the
    lengths of the ticket lists of the approved purchases is [N]; no
    ticket is in the lists of two different approved purchases; no ticket
    is both in the pool and in an approved purchase's list; and pool and
    approved lists together cover exactly [1..N]. *)
Theorem ticket_conservation (create_ok : Z -> Z -> Prop) (N : Z) (card : option string)
    (s : store) :
  0 <= N -> reachable create_ok N card s ->
  Z.of_nat (length (available_tickets s)) +
    msum (fun p => Z.of_nat (length (default [] (p_tickets p)))) (approved s) = N /\
  (forall k1 k2 p1 p2 t, k1 <> k2 ->
     approved s !! k1 = Some p1 -> approved s !! k2 = Some p2 ->
     t ∈ default [] (p_tickets p1) -> t ∉ default [] (p_tickets p2)) /\
  (forall k p t, approved s !! k = Some p ->
     t ∈ default [] (p_tickets p) -> t ∉ available_tickets s) /\
  (forall t, (t ∈ available_tickets s \/
              exists k p, approved s !! k = Some p /\ t ∈ default [] (p_tickets p))
             <-> 1 <= t <= N).
Proof.
  intros HN Hr. pose proof (ticket_inv_reachable _ _ _ _ Hr) as Hinv.
  pose proof (ticket_inv_NoDup _ _ Hinv) as Hnd. destruct Hinv as [HI1 _].
  split; [|split; [|split]].
  - rewrite <- length_approved_tickets, <- Nat2Z.inj_add, <- length_app, HI1,
      length_py_range. lia.
  - intros k1 k2 p1 p2 t Hne H1 H2 Ht1 Ht2.
    destruct (approved_tickets_two _ _ _ _ _ Hne H1 H2) as [rest Hrest].
    rewrite Hrest in Hnd.
    apply NoDup_app in Hnd as (_ & _ & Hnd).
    apply NoDup_app in Hnd as (_ & Hdis & _).
    apply (Hdis t Ht1). apply elem_of_app. by left.
  - intros k p t Hk Ht Hav.
    rewrite (approved_tickets_delete _ _ _ Hk) in Hnd.
    apply NoDup_app in Hnd as (_ & Hdis & _).
    apply (Hdis t Hav). apply elem_of_app. by left.
  - intros t. rewrite <- elem_of_approved_tickets, <- elem_of_app, HI1,
      elem_of_py_range. lia.
Qed.

Lemma ticket_conservation_witness :
  (0 <= 3 /\ reachable nonneg_create 3 None Scenario.s3) /\
  Z.of_nat (length (available_tickets Scenario.s3)) +
    msum (fun p => Z.of_nat (length (default [] (p_tickets p)))) (approved Scenario.s3) = 3.
Proof.
  split; [split; [lia|exact scenario_s3_reachable]|].
  exact (proj1 (ticket_conservation nonneg_create 3 None Scenario.s3
                  ltac:(lia) scenario_s3_reachable)).
Defined.

(** ** C8: revenue in the statistics *)

(** C8.  In every state reached from the initial store when every purchase
    is created with a nonnegative quantity and price, the [total_revenue] of
    [get_detailed_stats] (the sum of the users' [total_spent]) equals the
    sum of the [amount] fields of the purchases in the approved
    collection. *)
Theorem stats_revenue_consistent (N : Z) (card : option string) (s : store) :
  reachable nonneg_create N card s ->
  st_total_revenue (get_detailed_stats N s) = msum amount (approved s).
Proof.
  intros Hr. destruct (revenue_inv_reachable N card s Hr) as [R1 _]. exact R1.
Qed.

Lemma stats_revenue_consistent_witness :
  reachable nonneg_create 3 None Scenario.s3 /\
  st_total_revenue (get_detailed_stats 3 Scenario.s3) = msum amount (approved Scenario.s3).
Proof.
  split; [exact scenario_s3_reachable|].
  exact (stats_revenue_consistent 3 None Scenario.s3 scenario_s3_reachable).
Defined.

(** ** C3: the empty results of [approve_purchase] *)

(** C3.  When [purchase_id] names no pending purchase, or names a pending
    purchase whose quantity exceeds the pool size, [approve_purchase]
    returns the empty result [([], {})] and leaves the whole store as it
    was: the pool is unchanged and the purchase is still pending with all
    its fields. *)
Theorem approve_error_branches (now_iso : string) (idxs : list nat) (pid : string)
    (s : store) :
  (pending s !! pid = None \/
   exists p, pending s !! pid = Some p /\
             Z.of_nat (length (available_tickets s)) < quantity p) ->
  approve_purchase now_iso idxs pid s = (ApproveEmpty, s).
Proof.
  intros [Hn | (p & Hp & Hlt)]; unfold approve_purchase; [by rewrite Hn|].
  rewrite Hp. destruct (Z.ltb_spec (Z.of_nat (length (available_tickets s))) (quantity p));
    [|lia].
  simpl. rewrite insert_delete_eq, insert_id by done. by destruct s.
Qed.

Lemma approve_error_branches_witness :
  (exists p, pending Scenario.s3 !! "B" = Some p /\
             Z.of_nat (length (available_tickets Scenario.s3)) < quantity p) /\
  approve_purchase "t4" [] "B" Scenario.s3 = (ApproveEmpty, Scenario.s3).
Proof.
  assert (exists p, pending Scenario.s3 !! "B" = Some p /\
                    Z.of_nat (length (available_tickets Scenario.s3)) < quantity p) as H.
  { eexists. split; [vm_compute; reflexivity|vm_compute; reflexivity]. }
  split; [exact H|]. apply approve_error_branches. right. exact H.
Defined.

(** ** C2: a successful approval *)

(** C2.  Let [purchase_id] name a pending purchase [p] of quantity [q] with
    [0 <= q <= len(available)], the pool be duplicate-free (as it is in every
    reachable state, C1), and [random.sample] draw [q] distinct positions.
    Then [approve_purchase] returns exactly [q] distinct tickets taken from
    the pool together with [p] marked approved with those tickets and the
    resolution time; the pool afterwards is the old pool minus exactly those
    tickets; the purchase has left [pending] and is stored in [approved]; the
    user's ticket list is extended by the tickets; and the user's record
    (the stored one, or the one created from the purchase) has one more
    purchase, [q] more tickets, [amount] more spend and one more history
    entry. *)
Theorem approve_success (now_iso : string) (idxs : list nat) (pid : string) (s : store)
    (p : purchase) :
  pending s !! pid = Some p ->
  NoDup (available_tickets s) ->
  0 <= quantity p <= Z.of_nat (length (available_tickets s)) ->
  sample_ok (length (available_tickets s)) (quantity p) idxs ->
  exists tickets s',
    approve_purchase now_iso idxs pid s =
      (ApproveOk tickets (p_resolve Approved (Some tickets) now_iso p), s') /\
    Z.of_nat (length tickets) = quantity p /\ NoDup tickets /\
    (forall t, t ∈ tickets -> t ∈ available_tickets s) /\
    available_tickets s ≡ₚ tickets ++ available_tickets s' /\
    (forall t, t ∈ available_tickets s' <-> t ∈ available_tickets s /\ t ∉ tickets) /\
    p_status (p_resolve Approved (Some tickets) now_iso p) = Approved /\
    p_tickets (p_resolve Approved (Some tickets) now_iso p) = Some tickets /\
    resolved_at (p_resolve Approved (Some tickets) now_iso p) = Some now_iso /\
    pending s' !! pid = None /\
    approved s' !! pid = Some (p_resolve Approved (Some tickets) now_iso p) /\
    user_tickets s' !! p_user_id p =
      Some (default [] (user_tickets s !! p_user_id p) ++ tickets) /\
    (let r0 := default (user_from_purchase p now_iso) (users s !! p_user_id p) in
     exists r, users s' !! p_user_id p = Some r /\
       purchases r = purchases r0 + 1 /\
       total_tickets r = total_tickets r0 + quantity p /\
       total_spent r = total_spent r0 + amount p /\
       history r = history r0 ++
         [{| h_purchase_id := purchase_id p; h_tickets := tickets; h_amount := amount p;
             h_quantity := quantity p; h_resolved_at := now_iso; h_status := None |}]).
Proof.
  intros Hp Hnd Hq Hsample.
  destruct (sample_at_spec _ _ _ Hnd Hsample) as (Hnd_ts & Hlen & Hsub).
  destruct (remove_tickets_ok _ _ Hnd_ts Hsub) as [av' Hrem].
  pose proof (remove_tickets_perm _ _ _ Hrem) as Hperm.
  unfold approve_purchase. rewrite Hp.
  destruct (Z.ltb_spec (Z.of_nat (length (available_tickets s))) (quantity p)); [lia|].
  destruct (Z.ltb_spec (quantity p) 0); [lia|].
  simpl. rewrite Hrem.
  eexists _, _. split; [reflexivity|]. simpl.
  split; [done|]. split; [done|]. split; [done|]. split; [done|].
  split.
  { intros t. set (ts := sample_at (available_tickets s) idxs) in *. rewrite Hperm in Hnd. apply NoDup_app in Hnd as (_ & Hdis & _).
    rewrite Hperm, elem_of_app. split.
    - intros Ht. split; [by right|]. intros Ht'. by apply (Hdis t Ht').
    - intros [[Ht|Ht] Hn]; done. }
  split; [done|]. split; [done|]. split; [done|].
  split; [apply lookup_delete_eq|].
  split; [apply lookup_insert_eq|].
  split; [apply lookup_insert_eq|].
  eexists. split; [apply lookup_insert_eq|]. simpl. repeat split.
Qed.

Lemma approve_success_witness :
  let p := new_purchase "A" "t1" 7 None (Some "Ann") None 2 100 "f" "photo" in
  (pending Scenario.s2 !! "A" = Some p /\ NoDup (available_tickets Scenario.s2) /\
   0 <= quantity p <= Z.of_nat (length (available_tickets Scenario.s2)) /\
   sample_ok (length (available_tickets Scenario.s2)) (quantity p) [2%nat; 0%nat]) /\
  exists tickets s',
    approve_purchase "t3" [2%nat; 0%nat] "A" Scenario.s2 =
      (ApproveOk tickets (p_resolve Approved (Some tickets) "t3" p), s') /\
    Z.of_nat (length tickets) = quantity p.
Proof.
  intros p.
  assert (H1 : pending Scenario.s2 !! "A" = Some p) by (vm_compute; reflexivity).
  assert (H2 : NoDup (available_tickets Scenario.s2))
    by (vm_compute; repeat constructor; set_solver).
  assert (H3 : 0 <= quantity p <= Z.of_nat (length (available_tickets Scenario.s2)))
    by (change (0 <= 2 <= 3); lia).
  assert (H4 : sample_ok (length (available_tickets Scenario.s2)) (quantity p)
                 [2%nat; 0%nat]).
  { vm_compute. split; [|split];
      [repeat constructor; set_solver|reflexivity|repeat constructor; lia]. }
  split; [tauto|].
  destruct (approve_success "t3" [2%nat; 0%nat] "A" Scenario.s2 p H1 H2 H3 H4)
    as (ts & s' & E & L & _).
  exists ts, s'. split; assumption.
Defined.

(** ** C10: approval of a user without a record *)

(** C10.  Approving a pending purchase [p] of a user who has no record
    (never called [register_user]) succeeds under the conditions of C2 and
    creates the record from the purchase: its [user_id], [username],
    [full_name] and [phone_number] are the purchase's, and its counters
    reflect exactly this approval ([purchases = 1], [total_tickets = q],
    [total_spent = amount]) with a one-entry history. *)
Theorem approve_creates_user (now_iso : string) (idxs : list nat) (pid : string)
    (s : store) (p : purchase) :
  pending s !! pid = Some p ->
  users s !! p_user_id p = None ->
  NoDup (available_tickets s) ->
  0 <= quantity p <= Z.of_nat (length (available_tickets s)) ->
  sample_ok (length (available_tickets s)) (quantity p) idxs ->
  exists tickets s' r,
    approve_purchase now_iso idxs pid s =
      (ApproveOk tickets (p_resolve Approved (Some tickets) now_iso p), s') /\
    users s' !! p_user_id p = Some r /\
    user_id r = p_user_id p /\ username r = p_username p /\
    full_name r = p_full_name p /\ phone_number r = p_phone_number p /\
    purchases r = 1 /\ total_tickets r = quantity p /\ total_spent r = amount p /\
    length (history r) = 1%nat.
Proof.
  intros Hp Hu Hnd Hq Hsample.
  destruct (sample_at_spec _ _ _ Hnd Hsample) as (Hnd_ts & _ & Hsub).
  destruct (remove_tickets_ok _ _ Hnd_ts Hsub) as [av' Hrem].
  unfold approve_purchase. rewrite Hp.
  destruct (Z.ltb_spec (Z.of_nat (length (available_tickets s))) (quantity p)); [lia|].
  destruct (Z.ltb_spec (quantity p) 0); [lia|].
  simpl. rewrite Hrem, Hu.
  eexists _, _, _. split; [reflexivity|]. split; [apply lookup_insert_eq|].
  simpl. repeat split.
  by destruct (truthy (p_phone_number p)).
Qed.

Lemma approve_creates_user_witness :
  let p := new_purchase "A" "t1" 7 None (Some "Ann") None 2 100 "f" "photo" in
  (pending Scenario.s2 !! "A" = Some p /\ users Scenario.s2 !! 7 = None /\
   NoDup (available_tickets Scenario.s2) /\
   0 <= quantity p <= Z.of_nat (length (available_tickets Scenario.s2)) /\
   sample_ok (length (available_tickets Scenario.s2)) (quantity p) [2%nat; 0%nat]) /\
  exists tickets s' r,
    approve_purchase "t3" [2%nat; 0%nat] "A" Scenario.s2 =
      (ApproveOk tickets (p_resolve Approved (Some tickets) "t3" p), s') /\
    users s' !! 7 = Some r /\ purchases r = 1.
Proof.
  intros p.
  assert (H1 : pending Scenario.s2 !! "A" = Some p) by (vm_compute; reflexivity).
  assert (H0 : users Scenario.s2 !! p_user_id p = None) by (vm_compute; reflexivity).
  assert (H2 : NoDup (available_tickets Scenario.s2))
    by (vm_compute; repeat constructor; set_solver).
  assert (H3 : 0 <= quantity p <= Z.of_nat (length (available_tickets Scenario.s2)))
    by (change (0 <= 2 <= 3); lia).
  assert (H4 : sample_ok (length (available_tickets Scenario.s2)) (quantity p)
                 [2%nat; 0%nat]).
  { vm_compute. split; [|split];
      [repeat constructor; set_solver|reflexivity|repeat constructor; lia]. }
  split; [tauto|].
  destruct (approve_creates_user "t3" [2%nat; 0%nat] "A" Scenario.s2 p H1 H0 H2 H3 H4)
    as (ts & s' & r & E & U & _ & _ & _ & _ & P & _).
  exists ts, s', r. tauto.
Defined.

(** ** C4: cancelling an approved purchase *)

(** C4.  For a purchase [p] in the approved collection,
    [cancel_approved_purchase] returns [p] marked cancelled with the
    cancellation time; removes [p] from [approved]; makes the pool the
    strictly increasing list of the old pool's numbers and [p]'s tickets
    (duplicate-free and sorted, a permutation of the two lists together
    when they were disjoint); replaces the user's ticket list by the list
    without [p]'s tickets and touches no other user's list; decrements the
    user's [purchases], [total_tickets] and [total_spent] by [1],
    [len(tickets)] and [amount], each clamped at zero, and appends a
    cancelled history entry; a second call with the same id returns the
    empty result and changes nothing. *)
Theorem cancel_semantics (now_iso : string) (pid : string) (s : store) (p : purchase) :
  approved s !! pid = Some p ->
  exists s',
    cancel_approved_purchase now_iso pid s = (Some (p_cancel now_iso p), s') /\
    p_status (p_cancel now_iso p) = Cancelled /\
    cancelled_at (p_cancel now_iso p) = Some now_iso /\
    approved s' = delete pid (approved s) /\
    (forall t, t ∈ available_tickets s' <->
               t ∈ available_tickets s \/ t ∈ default [] (p_tickets p)) /\
    StronglySorted Z.lt (available_tickets s') /\ NoDup (available_tickets s') /\
    (NoDup (available_tickets s ++ default [] (p_tickets p)) ->
     available_tickets s' ≡ₚ available_tickets s ++ default [] (p_tickets p)) /\
    (forall bucket, user_tickets s !! p_user_id p = Some bucket ->
       user_tickets s' !! p_user_id p =
         Some (drop_tickets (default [] (p_tickets p)) bucket) /\
       (forall t, t ∈ drop_tickets (default [] (p_tickets p)) bucket <->
                  t ∈ bucket /\ t ∉ default [] (p_tickets p))) /\
    (user_tickets s !! p_user_id p = None -> user_tickets s' !! p_user_id p = None) /\
    (forall u, u <> p_user_id p -> user_tickets s' !! u = user_tickets s !! u) /\
    (forall r, users s !! p_user_id p = Some r ->
       exists r', users s' !! p_user_id p = Some r' /\
         purchases r' = Z.max 0 (purchases r - 1) /\
         total_tickets r' =
           Z.max 0 (total_tickets r - Z.of_nat (length (default [] (p_tickets p)))) /\
         total_spent r' = Z.max 0 (total_spent r - amount p) /\
         0 <= purchases r' /\ 0 <= total_tickets r' /\ 0 <= total_spent r' /\
         history r' = history r ++
           [{| h_purchase_id := purchase_id p; h_tickets := default [] (p_tickets p);
               h_amount := amount p; h_quantity := quantity p; h_resolved_at := now_iso;
               h_status := Some Cancelled |}]) /\
    (users s !! p_user_id p = None -> users s' !! p_user_id p = None) /\
    (forall now_iso', cancel_approved_purchase now_iso' pid s' = (None, s')).
Proof.
  intros Hp. unfold cancel_approved_purchase. rewrite Hp.
  eexists. split; [reflexivity|]. simpl.
  split; [done|]. split; [done|]. split; [done|].
  split; [intros t; by rewrite elem_of_sorted_set, elem_of_app|].
  split; [apply sorted_set_sorted|].
  split; [apply strongly_sorted_NoDup, sorted_set_sorted|].
  split; [apply sorted_set_perm|].
  split.
  { intros bucket Hb. split; [|apply elem_of_drop_tickets].
    rewrite Hb. destruct bucket as [|x b]; [done|]. apply lookup_insert_eq. }
  split; [intros Hb; by rewrite Hb|].
  split.
  { intros u Hne. destruct (user_tickets s !! p_user_id p) as [[|x b]|]; [done| |done].
    by apply lookup_insert_ne. }
  split.
  { intros r Hr. rewrite Hr. eexists. split; [apply lookup_insert_eq|]. simpl.
    repeat split; lia. }
  split; [intros Hr; by rewrite Hr|].
  intros now_iso'. by rewrite lookup_delete_eq.
Qed.

Lemma cancel_semantics_witness :
  let p := p_resolve Approved (Some [3; 1]) "t3"
             (new_purchase "A" "t1" 7 None (Some "Ann") None 2 100 "f" "photo") in
  approved Scenario.s5 !! "A" = Some p /\
  exists s', cancel_approved_purchase "t6" "A" Scenario.s5 = (Some (p_cancel "t6" p), s') /\
             approved s' = delete "A" (approved Scenario.s5).
Proof.
  intros p.
  assert (H : approved Scenario.s5 !! "A" = Some p) by (vm_compute; reflexivity).
  split; [exact H|].
  destruct (cancel_semantics "t6" "A" Scenario.s5 p H) as (s' & E & _ & _ & A & _).
  exists s'. split; assumption.
Defined.

(** ** C9: [register_user] *)

(** C9 (as stated, refuted).  A second [register_user] call without a
    username and with an empty display name keeps the stored username and
    display name instead of updating them. *)
Lemma register_user_keeps_names :
  let s := register_user "t0" 7 (Some "a") (Some "Ann") None (initial_store 3 None) in
  option_map username (users (register_user "t1" 7 None (Some "") None s) !! 7)
    = Some (Some "a") /\
  option_map full_name (users (register_user "t1" 7 None (Some "") None s) !! 7)
    = Some (Some "Ann").
Proof. split; reflexivity. Qed.

(** C9 (amended).  [register_user] always yields a store.  Without a record
    for [user_id] it stores one with the given username, display name and
    phone, [first_seen = last_active = now], zero counters and an empty
    history.  With a record it overwrites the username only when the
    supplied one is not [None], the display name and the phone only when
    the supplied value is non-empty, refreshes [last_active], and keeps the
    id, [first_seen], the counters and the history.  Other users' records
    and the other collections are untouched, and a repeated identical call
    changes nothing. *)
Theorem register_user_upsert (now_iso : string) (uid : Z) (uname fname phone : option string)
    (s : store) :
  (users s !! uid = None ->
   exists r, users (register_user now_iso uid uname fname phone s) !! uid = Some r /\
     user_id r = uid /\ username r = uname /\ full_name r = fname /\
     phone_number r = phone /\ first_seen r = now_iso /\ last_active r = now_iso /\
     purchases r = 0 /\ total_tickets r = 0 /\ total_spent r = 0 /\ history r = []) /\
  (forall r, users s !! uid = Some r ->
   exists r', users (register_user now_iso uid uname fname phone s) !! uid = Some r' /\
     user_id r' = user_id r /\
     username r' = (match uname with Some _ => uname | None => username r end) /\
     full_name r' = (if truthy fname then fname else full_name r) /\
     phone_number r' = (if truthy phone then phone else phone_number r) /\
     first_seen r' = first_seen r /\ last_active r' = now_iso /\
     purchases r' = purchases r /\ total_tickets r' = total_tickets r /\
     total_spent r' = total_spent r /\ history r' = history r) /\
  (forall u, u <> uid ->
     users (register_user now_iso uid uname fname phone s) !! u = users s !! u) /\
  set_users (users (register_user now_iso uid uname fname phone s)) s =
    register_user now_iso uid uname fname phone s /\
  register_user now_iso uid uname fname phone
    (register_user now_iso uid uname fname phone s) =
    register_user now_iso uid uname fname phone s.
Proof.
  unfold register_user. destruct (users s !! uid) as [r|] eqn:Hu; simpl.
  - split; [done|]. split.
    { intros r0 Hr0. injection Hr0 as <-. eexists. split; [apply lookup_insert_eq|].
      repeat split. }
    split; [intros u Hne; by apply lookup_insert_ne|].
    split; [done|].
    rewrite lookup_insert_eq. simpl. unfold set_users. simpl.
    rewrite insert_insert_eq.
    destruct uname, (truthy fname), (truthy phone); reflexivity.
  - split.
    { intros _. eexists. split; [apply lookup_insert_eq|]. repeat split. }
    split; [done|].
    split; [intros u Hne; by apply lookup_insert_ne|].
    split; [done|].
    rewrite lookup_insert_eq. simpl. unfold set_users. simpl.
    rewrite insert_insert_eq. unfold new_user.
    destruct uname, (truthy fname), (truthy phone); reflexivity.
Qed.

Lemma register_user_upsert_witness :
  users (initial_store 3 None) !! 7 = None /\
  exists r, users (register_user "t0" 7 (Some "a") (Some "Ann") None (initial_store 3 None))
              !! 7 = Some r /\ purchases r = 0.
Proof.
  assert (H : users (initial_store 3 None) !! 7 = None) by reflexivity.
  split; [exact H|].
  destruct (proj1 (register_user_upsert "t0" 7 (Some "a") (Some "Ann") None
                     (initial_store 3 None)) H)
    as (r & L & _ & _ & _ & _ & _ & _ & P & _).
  exists r. split; assumption.
Defined.

(** ** C5: reset *)

(** C5.  [reset_all_data] sets the pool back to [1..N] (in order, without
    duplicates), empties the pending, approved, rejected, user-ticket and
    user collections, leaves the templates, card number and subscription
    settings untouched, and yields a store satisfying the ticket invariant
    of C1. *)
Theorem reset_all_data_spec (N : Z) (s : store) :
  available_tickets (reset_all_data N s) = py_range 1 (N + 1) /\
  (forall t, t ∈ available_tickets (reset_all_data N s) <-> 1 <= t <= N) /\
  NoDup (available_tickets (reset_all_data N s)) /\
  pending (reset_all_data N s) = ∅ /\ approved (reset_all_data N s) = ∅ /\
  rejected (reset_all_data N s) = ∅ /\ user_tickets (reset_all_data N s) = ∅ /\
  users (reset_all_data N s) = ∅ /\
  s_meta (reset_all_data N s) = s_meta s /\
  s_subscriptions (reset_all_data N s) = s_subscriptions s /\
  ticket_inv N (reset_all_data N s).
Proof.
  split; [done|]. split; [intros t; simpl; rewrite elem_of_py_range; lia|].
  split; [apply NoDup_py_range|].
  do 7 (split; [done|]).
  split; simpl.
  - rewrite approved_tickets_empty, app_nil_r. done.
  - intros k _. apply lookup_empty.
Qed.

(** ** C6: restore *)

(** C6.  [restore_from_backup] replaces the whole state by the snapshot
    when the snapshot has the top-level fields [available_tickets],
    [users], [approved] and [pending]; when one of them is missing it
    fails with a format error naming it and the state is unchanged. *)
Theorem restore_from_backup_spec (snapshot data : json) :
  ((forall k, In k restore_required_keys -> json_has_key k snapshot = true) ->
   restore_from_backup snapshot data = (RestoreOk, snapshot)) /\
  (forall k, In k restore_required_keys -> json_has_key k snapshot = false ->
   exists missing, restore_from_backup snapshot data = (RestoreFormatError missing, data) /\
                   In k missing).
Proof.
  split.
  - intros H. unfold restore_from_backup.
    destruct (filter _ _) as [|m ms] eqn:E; [done|].
    assert (m ∈ filter (fun k => negb (json_has_key k snapshot)) restore_required_keys)
      as Hm by (rewrite E; left).
    apply list_elem_of_filter in Hm as [Hneg Hm].
    apply list_elem_of_In, H in Hm. by rewrite Hm in Hneg.
  - intros k Hin Hf. unfold restore_from_backup.
    assert (k ∈ filter (fun k => negb (json_has_key k snapshot)) restore_required_keys)
      as Hk.
    { apply list_elem_of_filter. split; [rewrite Hf; exact I|].
      by apply list_elem_of_In. }
    destruct (filter _ _) as [|m ms]; [by apply not_elem_of_nil in Hk|].
    exists (m :: ms). split; [done|]. by apply list_elem_of_In.
Qed.

Lemma restore_from_backup_spec_witness :
  let snap := JObj [("available_tickets", JArr []); ("users", JObj []);
                    ("approved", JObj []); ("pending", JObj [])] in
  (forall k, In k restore_required_keys -> json_has_key k snap = true) /\
  restore_from_backup snap JNull = (RestoreOk, snap) /\
  In "pending" restore_required_keys /\ json_has_key "pending" (JObj []) = false /\
  (exists missing, restore_from_backup (JObj []) JNull = (RestoreFormatError missing, JNull)
                   /\ In "pending" missing).
Proof.
  intros snap.
  assert (H1 : forall k, In k restore_required_keys -> json_has_key k snap = true).
  { intros k Hk. simpl in Hk. intuition subst; reflexivity. }
  assert (H2 : In "pending" restore_required_keys) by (simpl; tauto).
  assert (H3 : json_has_key "pending" (JObj []) = false) by reflexivity.
  split; [exact H1|]. split; [exact (proj1 (restore_from_backup_spec snap JNull) H1)|].
  split; [exact H2|]. split; [exact H3|].
  exact (proj2 (restore_from_backup_spec (JObj []) JNull) "pending" H2 H3).
Defined.

(** ** C7: template validation *)




(** * Further properties of the store *)

(* ------------------------------------------------------------------ *)
(** ** [get_subscription_config], [set_subscription_enabled], [add_subscription_channel], [remove_subscription_channel]: properties *)



Lemma filter_length_eq {A} (f : A -> bool) (l : list A) :
  length (List.filter f l) = length l <-> forallb f l = true.
Proof.
  induction l as [|x l IH]; simpl; [done|].
  pose proof (List.filter_length_le f l).
  destruct (f x); simpl; split; intros H0.
  - apply IH. lia.
  - f_equal. by apply IH.
  - lia.
  - done.
Qed.

Lemma forallb_not_has cid chs :
  forallb (fun c => negb (String.eqb (ch_id c) cid)) chs = negb (has_channel cid chs).
Proof.
  induction chs as [|c chs IH]; simpl; [done|]. rewrite IH.
  by destruct (String.eqb (ch_id c) cid).
Qed.

Lemma filter_all_true {A} (f : A -> bool) (l : list A) :
  forallb f l = true -> List.filter f l = l.
Proof.
  induction l as [|x l IH]; simpl; [done|].
  destruct (f x) eqn:E; simpl; [|done]. intros H. by rewrite IH.
Qed.

Lemma store_eta_subs s :
  set_subscriptions {| sub_enabled := sub_enabled (s_subscriptions s);
                       sub_channels := sub_channels (s_subscriptions s) |} s = s.
Proof. by destruct s as [? ? ? ? ? ? ? []]. Qed.

Lemma set_subscriptions_twice a b s :
  set_subscriptions a (set_subscriptions b s) = set_subscriptions a s.
Proof. done. Qed.

Lemma add_channel_absent cid t l chs :
  has_channel cid chs = false ->
  add_channel cid t l chs = chs ++ [{| ch_id := cid; ch_title := t; ch_link := l |}].
Proof.
  induction chs as [|c chs IH]; simpl; [done|].
  destruct (String.eqb (ch_id c) cid); simpl; [done|]. intros H. by rewrite IH.
Qed.

Lemma add_channel_ids cid t l chs :
  map ch_id (add_channel cid t l chs) =
  if has_channel cid chs then map ch_id chs else map ch_id chs ++ [cid].
Proof.
  induction chs as [|c chs IH]; simpl; [done|].
  destruct (String.eqb_spec (ch_id c) cid) as [->|Hne]; simpl; [done|].
  rewrite IH. by destruct (has_channel cid chs).
Qed.

Lemma add_channel_find cid t l chs :
  List.find (fun c => String.eqb (ch_id c) cid) (add_channel cid t l chs) =
  Some {| ch_id := cid; ch_title := t; ch_link := l |}.
Proof.
  induction chs as [|c chs IH]; simpl; [by rewrite String.eqb_refl|].
  destruct (String.eqb_spec (ch_id c) cid) as [->|Hne]; simpl.
  - by rewrite String.eqb_refl.
  - apply String.eqb_neq in Hne. by rewrite Hne.
Qed.

Lemma add_channel_twice cid t l t' l' chs :
  add_channel cid t l (add_channel cid t' l' chs) = add_channel cid t l chs.
Proof.
  induction chs as [|c chs IH]; simpl.
  - by rewrite String.eqb_refl.
  - destruct (String.eqb_spec (ch_id c) cid) as [->|Hne]; simpl.
    + by rewrite String.eqb_refl.
    + apply String.eqb_neq in Hne. by rewrite Hne, IH.
Qed.

Lemma remove_add_channel cid t l chs :
  has_channel cid chs = false ->
  List.filter (fun c => negb (String.eqb (ch_id c) cid)) (add_channel cid t l chs) = chs.
Proof.
  intros H. rewrite add_channel_absent by done. rewrite List.filter_app. simpl.
  rewrite String.eqb_refl. simpl. rewrite app_nil_r.
  apply filter_all_true. by rewrite forallb_not_has, H.
Qed.

(** X1: [remove_subscription_channel] reports a change exactly when a channel
    had the id; afterwards no channel has it, every other channel stays, and the
    [enabled] flag, [meta], the pool and the users are untouched. *)
Theorem remove_subscription_channel_spec (cid : string) (s : store) :
  let '(changed, s') := remove_subscription_channel cid s in
  changed = has_channel cid (sub_channels (s_subscriptions s)) /\
  has_channel cid (sub_channels (s_subscriptions s')) = false /\
  (forall c, In c (sub_channels (s_subscriptions s')) <->
             In c (sub_channels (s_subscriptions s)) /\ ch_id c <> cid) /\
  sub_enabled (s_subscriptions s') = sub_enabled (s_subscriptions s) /\
  s_meta s' = s_meta s /\ available_tickets s' = available_tickets s /\ users s' = users s.
Proof.
  unfold remove_subscription_channel. simpl.
  set (chs := sub_channels (s_subscriptions s)).
  split; [|split; [|split]]; try (repeat split; done).
  - destruct (Nat.eqb_spec (length (List.filter (fun c => negb (String.eqb (ch_id c) cid)) chs))
                           (length chs)) as [E|E]; simpl.
    + apply filter_length_eq in E. rewrite forallb_not_has in E.
      by destruct (has_channel cid chs).
    + destruct (has_channel cid chs) eqn:Hh; [done|].
      exfalso. apply E, filter_length_eq. by rewrite forallb_not_has, Hh.
  - apply Bool.not_true_iff_false. unfold has_channel. rewrite existsb_exists.
    intros (c & Hc & E). apply List.filter_In in Hc as [_ Hc]. by rewrite E in Hc.
  - intros c. rewrite List.filter_In.
    destruct (String.eqb_spec (ch_id c) cid); naive_solver.
Qed.

(** X2: removing an id that no channel has returns [False] and leaves the
    store unchanged. *)
Theorem remove_missing_channel (cid : string) (s : store) :
  has_channel cid (sub_channels (s_subscriptions s)) = false ->
  remove_subscription_channel cid s = (false, s).
Proof.
  intros H. unfold remove_subscription_channel.
  rewrite filter_all_true by (by rewrite forallb_not_has, H).
  by rewrite Nat.eqb_refl, store_eta_subs.
Qed.

(** X3: [add_subscription_channel] keeps the ids in order and appends the id only
    when it is new; ids stay duplicate-free; the first channel with the id
    carries the new title and link. *)
Theorem add_subscription_channel_spec (cid title : string) (link : option string) (s : store) :
  let chs := sub_channels (s_subscriptions s) in
  let chs' := sub_channels (s_subscriptions (add_subscription_channel cid title link s)) in
  map ch_id chs' = (if has_channel cid chs then map ch_id chs else map ch_id chs ++ [cid]) /\
  (NoDup (map ch_id chs) -> NoDup (map ch_id chs')) /\
  List.find (fun c => String.eqb (ch_id c) cid) chs' =
    Some {| ch_id := cid; ch_title := title; ch_link := link |}.
Proof.
  simpl. rewrite add_channel_ids, add_channel_find. split; [done|]. split; [|done].
  destruct (has_channel cid _) eqn:Hh; [done|]. intros Hnd.
  apply NoDup_app. split; [done|]. split; [|apply NoDup_singleton].
  intros x Hx Hs. apply list_elem_of_singleton in Hs. subst x.
  apply list_elem_of_In, in_map_iff in Hx as (c & Hc & Hin).
  assert (has_channel cid (sub_channels (s_subscriptions s)) = true) as Ht.
  { apply existsb_exists. exists c. split; [done|]. rewrite Hc. apply String.eqb_refl. }
  congruence.
Qed.

(** X4: adding the same channel id twice is the same as adding it once with the
    last title and link. *)
Theorem add_subscription_channel_twice (cid title title' : string) (link link' : option string)
    (s : store) :
  add_subscription_channel cid title link (add_subscription_channel cid title' link' s) =
  add_subscription_channel cid title link s.
Proof. unfold add_subscription_channel. simpl. by rewrite add_channel_twice. Qed.

(** X5: adding a new channel and then removing it returns [True] and gives back
    the original store. *)
Theorem add_remove_channel (cid title : string) (link : option string) (s : store) :
  has_channel cid (sub_channels (s_subscriptions s)) = false ->
  remove_subscription_channel cid (add_subscription_channel cid title link s) = (true, s).
Proof.
  intros H. unfold remove_subscription_channel, add_subscription_channel. simpl.
  rewrite remove_add_channel by done. rewrite add_channel_absent by done.
  rewrite length_app. simpl.
  replace (Nat.eqb _ _) with false by (symmetry; apply Nat.eqb_neq; lia).
  by rewrite set_subscriptions_twice, store_eta_subs.
Qed.

(* ------------------------------------------------------------------ *)
(** ** [set_card_number], [get_card_number], [set_manager_contact], [get_manager_contact], [reset_game_info_message]: properties *)



Lemma get_card_number_set card_number s :
  get_card_number (set_card_number card_number s) = py_strip card_number.
Proof.
  unfold get_card_number, set_card_number. simpl.
  destruct (String.eqb_spec (py_strip card_number) ""); congruence.
Qed.

Lemma strip_bytes_trimmed cs : edge_trimmed (strip_bytes cs).
Proof. split; intros e rest; [apply strip_bytes_no_lead|apply strip_bytes_no_trail]. Qed.

(** X6: after [set_card_number], [get_card_number] returns the argument with
    its leading and trailing whitespace removed (the empty string for an
    argument of whitespace only); whitespace is [str.isspace]'s, Unicode
    whitespace included. *)
Theorem card_number_roundtrip (card_number : string) (s : store) :
  let r := list_ascii_of_string (get_card_number (set_card_number card_number s)) in
  exists pre post,
    list_ascii_of_string card_number = pre ++ r ++ post /\
    py_spaces pre /\ py_spaces post /\ edge_trimmed r /\
    (py_spaces (list_ascii_of_string card_number) ->
       get_card_number (set_card_number card_number s) = "").
Proof.
  cbv zeta. rewrite get_card_number_set, py_strip_bytes.
  destruct (strip_bytes_split (list_ascii_of_string card_number)) as (pre & post & E & Hpre & Hpost).
  exists pre, post. split; [exact E|]. split; [exact Hpre|]. split; [exact Hpost|].
  split; [apply strip_bytes_trimmed|].
  intros Hb. apply String.eqb_eq, py_strip_empty, Hb.
Qed.

(** X7: after [set_manager_contact], [get_manager_contact] is never empty: it is
    [@menejer_1w] for an argument of whitespace only, and otherwise the
    argument with its leading and trailing whitespace removed. *)
Theorem manager_contact_roundtrip (uname : string) (s : store) :
  let c := get_manager_contact (set_manager_contact uname s) in
  c <> "" /\
  (py_spaces (list_ascii_of_string uname) -> c = "@menejer_1w") /\
  (~ py_spaces (list_ascii_of_string uname) ->
     c = py_strip uname /\
     exists pre post,
       list_ascii_of_string uname = pre ++ list_ascii_of_string c ++ post /\
       py_spaces pre /\ py_spaces post /\ edge_trimmed (list_ascii_of_string c)).
Proof.
  cbv zeta. unfold get_manager_contact, set_manager_contact. cbn -[py_strip String.eqb].
  destruct (String.eqb (py_strip uname) "") eqn:Hb.
  - split; [discriminate|]. split; [reflexivity|].
    intros Hn. exfalso. apply Hn, py_strip_empty, Hb.
  - split; [intros He; rewrite He in Hb; discriminate Hb|]. split.
    + intros Hsp. apply py_strip_empty in Hsp. congruence.
    + intros _. split; [reflexivity|]. rewrite py_strip_bytes.
      destruct (strip_bytes_split (list_ascii_of_string uname)) as (pre & post & E & Hpre & Hpost).
      exists pre, post. split; [exact E|]. split; [exact Hpre|]. split; [exact Hpost|].
      apply strip_bytes_trimmed.
Qed.


(** X8: in the initial store, every kind of template renders without a format
    error, whatever the prize, total, price and channel block. *)
Theorem default_templates_render k prize total price block N card :
  render_template k prize total price block (initial_store N card) = None.
Proof. destruct k; vm_compute; reflexivity. Qed.

(** X9: after [reset_game_info_message], [render_game_info_message] never
    fails. *)
Theorem reset_game_info_renders prize total price s :
  render_game_info_message prize total price (reset_game_info_message s).2 = None.
Proof. vm_compute. reflexivity. Qed.

(* ------------------------------------------------------------------ *)
(** ** [get_summary] and [get_user_tickets]: properties *)



Lemma msum_one {K A} `{Countable K} (m : gmap K A) :
  msum (fun _ => 1) m = Z.of_nat (size m).
Proof.
  unfold msum. rewrite <- length_map_to_list.
  induction (map_to_list m) as [|kv l IH]; simpl; [done|]. lia.
Qed.

Lemma user_sum_insert_new f u (m : gmap string purchase) k p :
  m !! k = None ->
  user_sum f u (<[k := p]> m) = (if Z.eqb (p_user_id p) u then f p else 0) + user_sum f u m.
Proof. intros Hk. unfold user_sum. by rewrite msum_insert_new. Qed.

Lemma user_sum_delete f u (m : gmap string purchase) k p :
  m !! k = Some p ->
  user_sum f u m = (if Z.eqb (p_user_id p) u then f p else 0) + user_sum f u (delete k m).
Proof.
  intros Hk. unfold user_sum.
  exact (msum_delete (fun p => if Z.eqb (p_user_id p) u then f p else 0) m k p Hk).
Qed.

Lemma user_sum_none f u (m : gmap string purchase) :
  (forall k p, m !! k = Some p -> p_user_id p <> u) -> user_sum f u m = 0.
Proof.
  intros Hm. apply msum_zero. intros k p Hk. specialize (Hm k p Hk).
  destruct (Z.eqb_spec (p_user_id p) u); [done|reflexivity].
Qed.

Lemma user_sum_nonneg f u (m : gmap string purchase) :
  (forall k p, m !! k = Some p -> 0 <= f p) -> 0 <= user_sum f u m.
Proof.
  intros Hm. apply msum_nonneg. intros k p Hk.
  destruct (Z.eqb _ _); [by apply (Hm k)|lia].
Qed.

Lemma count_inv_initial N card : count_inv (initial_store N card).
Proof.
  split; [simpl; by rewrite !msum_empty|].
  split; [simpl; by rewrite !msum_empty|].
  repeat split; simpl; intros *; rewrite ?lookup_empty; try done.
Qed.

Lemma counters_preserving_update (us : gmap Z user_record) (A : gmap string purchase)
    uid r r' :
  us !! uid = Some r -> total_tickets r' = total_tickets r -> purchases r' = purchases r ->
  (forall u r0, us !! u = Some r0 ->
     total_tickets r0 = user_sum quantity u A /\ purchases r0 = user_sum (fun _ => 1) u A) ->
  msum total_tickets (<[uid := r']> us) = msum total_tickets us /\
  msum purchases (<[uid := r']> us) = msum purchases us /\
  (forall u r0, <[uid := r']> us !! u = Some r0 ->
     total_tickets r0 = user_sum quantity u A /\ purchases r0 = user_sum (fun _ => 1) u A).
Proof.
  intros Hu Ht Hp HA. split; [|split].
  - rewrite (msum_update _ _ _ r _ Hu). lia.
  - rewrite (msum_update _ _ _ r _ Hu). lia.
  - intros u r0 Hl. destruct (decide (uid = u)) as [<-|Hne].
    + rewrite lookup_insert_eq in Hl. injection Hl as <-. rewrite Ht, Hp. by apply HA.
    + rewrite lookup_insert_ne in Hl by done. by apply HA.
Qed.

Lemma length_sample_at l idxs : length (sample_at l idxs) = length idxs.
Proof. unfold sample_at. apply length_map. Qed.

(** Keeps the first five conjuncts of [count_inv] from the hypotheses. *)
Local Ltac keep := refine (conj _ (conj _ (conj _ (conj _ (conj _ _)))));
  [eassumption|eassumption|eassumption|eassumption|eassumption|].

Lemma count_inv_step create_ok s s' :
  step create_ok s s' -> count_inv s -> count_inv s'.
Proof.
  intros Hst (R1 & R1' & R2 & R3 & R4 & R6).
  destruct Hst as [now_iso uid uname fname phone s
                  |pid now_iso uid uname fname phone qty price rid rkind s Hp Ha Hr _
                  |now_iso idxs pid s Hsample
                  |now_iso pid s
                  |now_iso pid s].
  - (* register_user *)
    unfold register_user. destruct (users s !! uid) as [r|] eqn:Hu.
    + destruct (counters_preserving_update _ (approved s) _ r
                  {| user_id := user_id r;
                     username := (match uname with Some _ => uname | None => username r end);
                     full_name := (if truthy fname then fname else full_name r);
                     phone_number := (if truthy phone then phone else phone_number r);
                     first_seen := first_seen r; last_active := now_iso;
                     purchases := purchases r; total_tickets := total_tickets r;
                     total_spent := total_spent r; history := history r |}
                  Hu eq_refl eq_refl R2) as (E1 & E2 & E3).
      split; [simpl; lia|]. split; [simpl; lia|]. split; [exact E3|].
      repeat split; simpl; try done.
      intros k p Hk. rewrite lookup_insert_is_Some'. right. by apply (R3 k).
    + split; [simpl; rewrite msum_insert_new by done; simpl; lia|].
      split; [simpl; rewrite msum_insert_new by done; simpl; lia|].
      split.
      { simpl. intros u r0 Hl. destruct (decide (uid = u)) as [<-|Hne].
        - rewrite lookup_insert_eq in Hl. injection Hl as <-. simpl.
          split; symmetry; apply user_sum_none; intros k p Hk Heq;
            destruct (R3 k p Hk) as [x Hx]; congruence.
        - rewrite lookup_insert_ne in Hl by done. by apply R2. }
      repeat split; simpl; try done.
      intros k p Hk. rewrite lookup_insert_is_Some'. right. by apply (R3 k).
  - (* create_pending_purchase *)
    split; [exact R1|]. split; [exact R1'|]. split; [exact R2|].
    split; [exact R3|]. split; [exact R4|].
    simpl. intros k [p' Hk]. destruct (decide (pid = k)) as [<-|Hne]; [done|].
    rewrite lookup_insert_ne in Hk by done. apply R6. eauto.
  - (* approve_purchase *)
    unfold approve_purchase.
    destruct (pending s !! pid) as [p|] eqn:Hp; [|keep; exact R6].
    assert (approved s !! pid = None) as HnA by (apply R6; eauto).
    destruct (Z.ltb_spec (Z.of_nat (length (available_tickets s))) (quantity p)).
    { simpl. rewrite insert_delete_eq, insert_id by done. keep; exact R6. }
    destruct (Z.ltb_spec (quantity p) 0).
    { keep. by apply pending_delete_disjoint. }
    simpl. destruct (remove_tickets _ _) as [partial|av'].
    { keep. by apply pending_delete_disjoint. }
    destruct (Hsample p eq_refl ltac:(lia)) as (_ & Hlen & _).
    set (ts := sample_at (available_tickets s) idxs).
    set (uid := p_user_id p).
    set (r := default (user_from_purchase p now_iso) (users s !! uid)).
    assert (total_tickets r = user_sum quantity uid (approved s) /\
            purchases r = user_sum (fun _ => 1) uid (approved s)) as [Hr1 Hr2].
    { subst r. destruct (users s !! uid) as [r0|] eqn:Hu; simpl.
      - by apply R2.
      - split; symmetry; apply user_sum_none; intros k p0 Hk Heq;
          destruct (R3 k p0 Hk) as [x Hx]; congruence. }
    assert (msum total_tickets (users s) =
            total_tickets r + msum total_tickets (delete uid (users s)) /\
            msum purchases (users s) =
            purchases r + msum purchases (delete uid (users s))) as [Hus1 Hus2].
    { subst r. destruct (users s !! uid) as [r0|] eqn:Hu; simpl.
      - split; by apply msum_delete.
      - rewrite delete_id by done. lia. }
    split; [simpl; rewrite msum_insert, msum_insert_new by done; simpl; lia|].
    split; [simpl; rewrite msum_insert, msum_insert_new by done; simpl; lia|].
    split.
    { simpl. intros u r0 Hl. rewrite !user_sum_insert_new by done. simpl.
      destruct (decide (uid = u)) as [<-|Hne].
      - rewrite lookup_insert_eq in Hl. injection Hl as <-. simpl.
        rewrite Z.eqb_refl. lia.
      - rewrite lookup_insert_ne in Hl by done.
        destruct (Z.eqb_spec (p_user_id p) u); [done|]. apply R2 in Hl. lia. }
    split; [|split]; simpl.
    + intros k p0 Hk. rewrite lookup_insert_is_Some'.
      destruct (decide (pid = k)) as [<-|Hne].
      * rewrite lookup_insert_eq in Hk. injection Hk as <-. by left.
      * rewrite lookup_insert_ne in Hk by done. right. by apply (R3 k).
    + intros k p0 Hk. destruct (decide (pid = k)) as [<-|Hne].
      * rewrite lookup_insert_eq in Hk. injection Hk as <-. simpl.
        subst ts. rewrite length_sample_at. done.
      * rewrite lookup_insert_ne in Hk by done. by apply (R4 k).
    + intros k [p' Hk].
      destruct (decide (pid = k)) as [<-|Hne]; [by rewrite lookup_delete_eq in Hk|].
      rewrite lookup_delete_ne in Hk by done. rewrite lookup_insert_ne by done.
      apply R6. eauto.
  - (* reject_purchase *)
    unfold reject_purchase.
    destruct (pending s !! pid) as [p|] eqn:Hp; [|keep; exact R6].
    simpl. destruct (users s !! p_user_id p) as [r|] eqn:Hu.
    + destruct (counters_preserving_update _ (approved s) _ r (touch_user now_iso r)
                  Hu eq_refl eq_refl R2) as (E1 & E2 & E3).
      split; [simpl; lia|]. split; [simpl; lia|]. split; [exact E3|].
      split; [simpl; intros k p0 Hk; rewrite lookup_insert_is_Some'; right; by apply (R3 k)|].
      split; [exact R4|]. by apply pending_delete_disjoint.
    + keep. by apply pending_delete_disjoint.
  - (* cancel_approved_purchase *)
    unfold cancel_approved_purchase.
    destruct (approved s !! pid) as [p|] eqn:Hp; [|keep; exact R6].
    destruct (R3 pid p Hp) as [r Hu]. simpl. rewrite Hu.
    pose proof (user_sum_delete quantity (p_user_id p) _ _ _ Hp) as Hdq.
    pose proof (user_sum_delete (fun _ => 1) (p_user_id p) _ _ _ Hp) as Hd1.
    rewrite Z.eqb_refl in Hdq, Hd1.
    assert (forall k p0, approved s !! k = Some p0 -> 0 <= quantity p0) as Hq.
    { intros k p0 Hk. rewrite <- (R4 k p0 Hk). lia. }
    assert (0 <= user_sum quantity (p_user_id p) (delete pid (approved s))).
    { apply user_sum_nonneg. intros k p0 Hk.
      apply lookup_delete_Some in Hk as [_ Hk]. by apply (Hq k). }
    assert (0 <= user_sum (fun _ => 1) (p_user_id p) (delete pid (approved s))).
    { apply user_sum_nonneg. intros. lia. }
    destruct (R2 _ r Hu) as [Hr1 Hr2].
    pose proof (R4 pid p Hp) as Hlen.
    split.
    { simpl. rewrite (msum_update _ _ _ r _ Hu). rewrite (msum_delete quantity _ _ _ Hp) in R1.
      simpl. lia. }
    split.
    { simpl. rewrite (msum_update _ _ _ r _ Hu).
      rewrite (msum_delete (fun _ => 1) _ _ _ Hp) in R1'. simpl. lia. }
    split.
    { simpl. intros u r0 Hl. destruct (decide (p_user_id p = u)) as [<-|Hne].
      - rewrite lookup_insert_eq in Hl. injection Hl as <-. simpl. lia.
      - rewrite lookup_insert_ne in Hl by done.
        rewrite (proj1 (R2 u r0 Hl)), (proj2 (R2 u r0 Hl)),
          (user_sum_delete quantity u _ _ _ Hp), (user_sum_delete (fun _ => 1) u _ _ _ Hp).
        destruct (Z.eqb_spec (p_user_id p) u); [done|]. lia. }
    split; [|split]; simpl.
    + intros k p0 Hk. apply lookup_delete_Some in Hk as [_ Hk].
      rewrite lookup_insert_is_Some'. right. by apply (R3 k).
    + intros k p0 Hk. apply lookup_delete_Some in Hk as [_ Hk]. by apply (R4 k).
    + intros k Hk. destruct (decide (pid = k)) as [<-|Hne]; [apply lookup_delete_eq|].
      rewrite lookup_delete_ne by done. by apply R6.
Qed.

Lemma count_inv_rtc create_ok s s' :
  rtc (step create_ok) s s' -> count_inv s -> count_inv s'.
Proof.
  induction 1 as [|x y z Hxy _ IH]; [done|]. intros Hx.
  apply IH. by apply (count_inv_step create_ok x y).
Qed.

Lemma count_inv_reachable create_ok N card s :
  reachable create_ok N card s -> count_inv s.
Proof. intros Hr. apply (count_inv_rtc create_ok _ _ Hr), count_inv_initial. Qed.

Lemma uat_insert u (m : gmap string purchase) k p :
  m !! k = None ->
  user_approved_tickets u (<[k := p]> m) ≡ₚ
    (if Z.eqb (p_user_id p) u then default [] (p_tickets p) else []) ++
    user_approved_tickets u m.
Proof.
  intros Hk. unfold user_approved_tickets.
  etrans; [apply concat_perm, Permutation_map, map_to_list_insert, Hk|]. done.
Qed.

Lemma uat_delete u (m : gmap string purchase) k p :
  m !! k = Some p ->
  user_approved_tickets u m ≡ₚ
    (if Z.eqb (p_user_id p) u then default [] (p_tickets p) else []) ++
    user_approved_tickets u (delete k m).
Proof.
  intros Hk. rewrite <- (insert_delete_id m k p Hk) at 1.
  apply uat_insert, lookup_delete_eq.
Qed.

Lemma elem_of_uat u (m : gmap string purchase) t :
  t ∈ user_approved_tickets u m <->
  exists k p, m !! k = Some p /\ p_user_id p = u /\ t ∈ default [] (p_tickets p).
Proof.
  unfold user_approved_tickets. rewrite elem_of_concat_map. split.
  - intros ([k p] & Hkp & Ht). apply elem_of_map_to_list in Hkp. simpl in Ht.
    destruct (Z.eqb_spec (p_user_id p) u); [eauto|by apply elem_of_nil in Ht].
  - intros (k & p & Hkp & <- & Ht). exists (k, p). simpl. rewrite Z.eqb_refl.
    split; [|done]. by apply elem_of_map_to_list.
Qed.

Lemma uat_subset u (m : gmap string purchase) t :
  t ∈ user_approved_tickets u m -> t ∈ approved_tickets m.
Proof.
  rewrite elem_of_uat, elem_of_approved_tickets. intros (k & p & ? & _ & ?). eauto.
Qed.

Lemma NoDup_concat_map_sub {B} (f g : B -> list Z) (l : list B) :
  (forall x, g x = f x \/ g x = []) ->
  NoDup (concat (map f l)) -> NoDup (concat (map g l)).
Proof.
  intros Hfg. induction l as [|x l IH]; simpl; [done|].
  intros (Hx & Hdis & Hl)%NoDup_app. apply NoDup_app.
  split; [destruct (Hfg x) as [->| ->]; [done|constructor]|].
  split; [|by apply IH].
  intros t Ht Hin. destruct (Hfg x) as [E|E]; rewrite E in Ht; [|by apply elem_of_nil in Ht].
  apply (Hdis t Ht). apply elem_of_concat_map in Hin as (y & Hy & Hty).
  apply elem_of_concat_map. exists y. split; [done|].
  by destruct (Hfg y) as [<-|E']; [|rewrite E' in Hty; apply elem_of_nil in Hty].
Qed.

Lemma NoDup_uat u (m : gmap string purchase) :
  NoDup (approved_tickets m) -> NoDup (user_approved_tickets u m).
Proof.
  apply NoDup_concat_map_sub. intros kv. simpl.
  destruct (Z.eqb _ _); [by left|by right].
Qed.

Lemma drop_tickets_perm ts l1 l2 : l1 ≡ₚ l2 -> drop_tickets ts l1 ≡ₚ drop_tickets ts l2.
Proof. intros H. unfold drop_tickets. by rewrite H. Qed.

Lemma drop_tickets_app ts l1 l2 :
  drop_tickets ts (l1 ++ l2) = drop_tickets ts l1 ++ drop_tickets ts l2.
Proof. unfold drop_tickets. apply filter_app. Qed.

Lemma drop_tickets_keep ts l : (forall t, t ∈ l -> t ∉ ts) -> drop_tickets ts l = l.
Proof.
  intros H. induction l as [|x l IH]; [done|].
  unfold drop_tickets in *. rewrite filter_cons.
  assert (existsb (Z.eqb x) ts = false) as ->.
  { apply Bool.not_true_iff_false. rewrite existsb_eqb_elem.
    apply H, elem_of_cons; by left. }
  simpl.
  f_equal. apply IH. intros t Ht. apply H, elem_of_cons. by right.
Qed.

Lemma drop_tickets_all ts l : (forall t, t ∈ l -> t ∈ ts) -> drop_tickets ts l = [].
Proof.
  intros H. apply Permutation_nil_r. unfold drop_tickets.
  induction l as [|x l IH]; [done|]. rewrite filter_cons.
  assert (existsb (Z.eqb x) ts = true) as ->.
  { rewrite existsb_eqb_elem. apply H, elem_of_cons; by left. }
  simpl.
  apply IH. intros t Ht. apply H, elem_of_cons. by right.
Qed.

Lemma bucket_inv_initial N card : bucket_inv (initial_store N card).
Proof.
  intros u. simpl. rewrite lookup_empty. unfold user_approved_tickets.
  by rewrite map_to_list_empty.
Qed.

Lemma bucket_inv_step create_ok N s s' :
  step create_ok s s' -> ticket_inv N s -> bucket_inv s -> bucket_inv s'.
Proof.
  intros Hst Hinv HB. pose proof (ticket_inv_NoDup N s Hinv) as Hnd.
  destruct Hinv as [HI1 HI2].
  destruct Hst as [now_iso uid uname fname phone s
                  |pid now_iso uid uname fname phone qty price rid rkind s Hp Ha Hr _
                  |now_iso idxs pid s Hsample
                  |now_iso pid s
                  |now_iso pid s].
  - unfold register_user. by destruct (users s !! uid).
  - exact HB.
  - unfold approve_purchase.
    destruct (pending s !! pid) as [p|] eqn:Hp; [|exact HB].
    assert (approved s !! pid = None) as HnA by (apply HI2; eauto).
    destruct (Z.ltb _ _); [exact HB|]. destruct (Z.ltb _ _); [exact HB|].
    simpl. destruct (remove_tickets _ _) as [partial|av']; [exact HB|].
    intros u. simpl. rewrite uat_insert by done. simpl.
    destruct (decide (p_user_id p = u)) as [<-|Hne].
    + rewrite lookup_insert_eq, Z.eqb_refl. simpl.
      rewrite Permutation_app_comm. by apply Permutation_app_head.
    + rewrite lookup_insert_ne by done.
      replace (Z.eqb (p_user_id p) u) with false by (symmetry; by apply Z.eqb_neq).
      apply HB.
  - unfold reject_purchase.
    destruct (pending s !! pid) as [p|] eqn:Hp; [|exact HB].
    exact HB.
  - unfold cancel_approved_purchase.
    destruct (approved s !! pid) as [p|] eqn:Hp; [|exact HB].
    apply NoDup_app in Hnd as (_ & _ & HndA).
    rewrite (approved_tickets_delete _ _ _ Hp) in HndA.
    apply NoDup_app in HndA as (_ & Hdis & _).
    intros u. simpl.
    pose proof (uat_delete u _ _ _ Hp) as Hd.
    pose proof (HB u) as Hu.
    destruct (decide (p_user_id p = u)) as [<-|Hne].
    + rewrite Z.eqb_refl in Hd.
      set (ts := default [] (p_tickets p)) in *.
      set (rest := user_approved_tickets (p_user_id p) (delete pid (approved s))) in *.
      assert (forall t, t ∈ rest -> t ∉ ts) as Hrest.
      { intros t Ht Hts. apply (Hdis t Hts). by apply uat_subset in Ht. }
      destruct (user_tickets s !! p_user_id p) as [[|b bs]|] eqn:Hb.
      * rewrite Hb. simpl in Hu. rewrite Hd in Hu.
        apply Permutation_nil_l in Hu. symmetry in Hu.
        apply app_eq_nil in Hu as [_ ->]. done.
      * rewrite lookup_insert_eq. simpl.
        etrans; [apply drop_tickets_perm; etrans; [exact Hu|exact Hd]|].
        rewrite drop_tickets_app, drop_tickets_all, drop_tickets_keep by done. done.
      * rewrite Hb. simpl in Hu. rewrite Hd in Hu.
        apply Permutation_nil_l in Hu. symmetry in Hu.
        apply app_eq_nil in Hu as [_ ->]. done.
    + replace (Z.eqb (p_user_id p) u) with false in Hd by (symmetry; by apply Z.eqb_neq).
      simpl in Hd. rewrite <- Hd.
      destruct (user_tickets s !! p_user_id p) as [[|b bs]|]; try exact Hu.
      rewrite lookup_insert_ne by done. exact Hu.
Qed.

Lemma ticket_bucket_rtc create_ok N s s' :
  rtc (step create_ok) s s' -> ticket_inv N s /\ bucket_inv s -> ticket_inv N s' /\ bucket_inv s'.
Proof.
  induction 1 as [|x y z Hxy _ IH]; [done|]. intros [Hx Bx].
  apply IH. split; [by apply (ticket_inv_step create_ok N x y)|].
  by apply (bucket_inv_step create_ok N x y).
Qed.

Lemma bucket_inv_reachable create_ok N card s :
  reachable create_ok N card s -> bucket_inv s.
Proof.
  intros Hr. apply (ticket_bucket_rtc create_ok N _ _ Hr).
  split; [apply ticket_inv_initial|apply bucket_inv_initial].
Qed.

Lemma strongly_sorted_le_lt l : StronglySorted Z.le l -> NoDup l -> StronglySorted Z.lt l.
Proof.
  induction 1 as [|x l _ IH Hf]; intros Hnd; constructor.
  - apply IH. by apply NoDup_cons in Hnd as [_ ?].
  - apply NoDup_cons in Hnd as [Hx _]. rewrite List.Forall_forall in Hf |- *.
    intros y Hy. specialize (Hf y Hy). assert (x <> y).
    { intros ->. apply Hx. by apply list_elem_of_In. }
    lia.
Qed.

(** X10: in every reachable state, the [sold] of [get_summary] equals the
    [tickets_sold] of [get_detailed_stats] and the number of approved tickets,
    lies in [0 .. N], and the users' purchase counts add up to the number of
    approved purchases. *)
Theorem stats_counts_consistent (create_ok : Z -> Z -> Prop) (N : Z) (card : option string)
    (s : store) :
  0 <= N -> reachable create_ok N card s ->
  st_tickets_sold (get_detailed_stats N s) = su_sold (get_summary N s) /\
  su_sold (get_summary N s) = Z.of_nat (length (approved_tickets (approved s))) /\
  0 <= su_sold (get_summary N s) <= N /\
  st_total_purchases (get_detailed_stats N s) = st_approved_count (get_detailed_stats N s).
Proof.
  intros HN Hr. destruct (count_inv_reachable _ _ _ _ Hr) as (R1 & R1' & _ & _ & R4 & _).
  destruct (ticket_inv_reachable _ _ _ _ Hr) as [HI1 _].
  pose proof (Permutation_length HI1) as Hl. rewrite length_app, length_py_range in Hl.
  assert (msum quantity (approved s) = Z.of_nat (length (approved_tickets (approved s)))) as Hq.
  { rewrite length_approved_tickets. apply msum_ext. intros k p Hk. by rewrite (R4 k p Hk). }
  simpl. split; [|split; [|split]].
  - rewrite R1, Hq. lia.
  - lia.
  - lia.
  - rewrite R1'. apply msum_one.
Qed.

(** X11: in every reachable state, [get_user_tickets] is strictly increasing and
    holds exactly the tickets of the user's approved purchases. *)
Theorem get_user_tickets_spec (create_ok : Z -> Z -> Prop) (N : Z) (card : option string)
    (s : store) (u : Z) :
  reachable create_ok N card s ->
  StronglySorted Z.lt (get_user_tickets u s) /\
  (forall t, t ∈ get_user_tickets u s <->
     exists k p, approved s !! k = Some p /\ p_user_id p = u /\ t ∈ default [] (p_tickets p)).
Proof.
  intros Hr. pose proof (bucket_inv_reachable _ _ _ _ Hr u) as Hb.
  pose proof (ticket_inv_NoDup _ _ (ticket_inv_reachable _ _ _ _ Hr)) as Hnd.
  apply NoDup_app in Hnd as (_ & _ & Hnd).
  unfold get_user_tickets.
  split.
  - apply strongly_sorted_le_lt;
      [apply StronglySorted_merge_sort; [intros ???; lia|intros ??; lia]|].
    rewrite merge_sort_Permutation, Hb. by apply NoDup_uat.
  - intros t. rewrite merge_sort_Permutation, Hb. apply elem_of_uat.
Qed.

(* ------------------------------------------------------------------ *)
(** ** Startup: [__init__], [_load], [_default_payload], [_ensure_defaults]: properties *)



Lemma obj_get_put k k' v fs :
  obj_get k (obj_put k' v fs) = if String.eqb k' k then Some v else obj_get k fs.
Proof.
  induction fs as [|[k0 v0] fs IH]; simpl.
  - by destruct (String.eqb k' k).
  - destruct (String.eqb_spec k0 k') as [->|Hne]; simpl.
    + destruct (String.eqb k' k); done.
    + destruct (String.eqb_spec k0 k) as [->|Hne2]; [|done].
      destruct (String.eqb_spec k' k) as [->|]; [done|]. done.
Qed.

Lemma obj_put_get k v fs : obj_get k fs = Some v -> obj_put k v fs = fs.
Proof.
  induction fs as [|[k0 v0] fs IH]; simpl; [done|].
  destruct (String.eqb_spec k0 k) as [->|Hne].
  - by intros [= ->].
  - intros H. by rewrite IH.
Qed.

Lemma obj_setdefault_get k v fs v0 :
  obj_get k fs = Some v0 -> obj_setdefault k v fs = (v0, fs).
Proof. unfold obj_setdefault. by intros ->. Qed.

Lemma obj_get_setdefault k k' v fs :
  obj_get k (obj_setdefault k' v fs).2 =
  if String.eqb k' k then Some (default v (obj_get k' fs)) else obj_get k fs.
Proof.
  unfold obj_setdefault. destruct (obj_get k' fs) as [v0|] eqn:E; simpl.
  - destruct (String.eqb_spec k' k) as [->|]; [by rewrite E|done].
  - rewrite obj_get_put. done.
Qed.

Lemma obj_setdefault_present k v fs : is_Some (obj_get k fs) -> (obj_setdefault k v fs).2 = fs.
Proof. unfold obj_setdefault. by intros [v0 ->]. Qed.

Lemma setdefault_keeps_val k k' v w fs :
  obj_get k fs = Some v -> obj_get k (obj_setdefault k' w fs).2 = Some v.
Proof.
  intros H. rewrite obj_get_setdefault.
  destruct (String.eqb_spec k' k) as [->|]; [by rewrite H|done].
Qed.

Lemma setdefault_other k k' w fs :
  k' <> k -> obj_get k (obj_setdefault k' w fs).2 = obj_get k fs.
Proof. intros H. rewrite obj_get_setdefault. by apply String.eqb_neq in H as ->. Qed.

Lemma put_other k k' w fs : k' <> k -> obj_get k (obj_put k' w fs) = obj_get k fs.
Proof. intros H. rewrite obj_get_put. by apply String.eqb_neq in H as ->. Qed.

Lemma put_same k w fs : obj_get k (obj_put k w fs) = Some w.
Proof. by rewrite obj_get_put, String.eqb_refl. Qed.

Lemma setdefault_same k w fs : is_Some (obj_get k (obj_setdefault k w fs).2).
Proof. rewrite obj_get_setdefault, String.eqb_refl. eauto. Qed.

Lemma setdefault_keeps_some k k' w fs :
  is_Some (obj_get k fs) -> is_Some (obj_get k (obj_setdefault k' w fs).2).
Proof. intros [v H]. exists v. by apply setdefault_keeps_val. Qed.

Lemma put_keeps_some k k' w fs :
  is_Some (obj_get k fs) -> is_Some (obj_get k (obj_put k' w fs)).
Proof.
  intros [v H]. rewrite obj_get_put. destruct (String.eqb k' k); eauto.
Qed.

Lemma put_same_some k w fs : is_Some (obj_get k (obj_put k w fs)).
Proof. rewrite put_same. eauto. Qed.

Create HintDb json_keys.

#[local] Hint Resolve setdefault_same put_same_some setdefault_keeps_some put_keeps_some
  : json_keys.

Lemma ensure_start_message_some mt m1 :
  ensure_start_message mt = Some m1 ->
  exists sm, obj_get "start_message" m1 = Some (JObj sm) /\
             is_Some (obj_get "text" sm) /\ is_Some (obj_get "media" sm).
Proof.
  unfold ensure_start_message. destruct (obj_get "start_message" mt) as [[]|]; intros [=<-];
    eexists; (split; [apply put_same|]); split; eauto with json_keys.
Qed.

Lemma ensure_meta_some card mt mt' :
  ensure_meta card mt = Some mt' -> meta_ensured mt'.
Proof.
  unfold ensure_meta. destruct (ensure_start_message mt) as [m1|] eqn:E1; [|done].
  intros [= <-]. destruct (ensure_start_message_some _ _ E1) as (sm & Hsm & Ht & Hm).
  set (m2 := (obj_setdefault "subscription_message" _ m1).2).
  assert (obj_get "start_message" m2 = Some (JObj sm)) as Hsm2
    by (subst m2; by rewrite setdefault_other).
  assert (is_Some (obj_get "subscription_message" m2)) as Hs2 by (subst m2; eauto with json_keys).
  destruct (obj_get "card_number" m2) as [c|] eqn:Ec.
  - split; [|split; [|split; [|split]]]; eauto with json_keys.
    exists sm. split; [|done]. by rewrite !setdefault_other.
  - split; [|split; [|split; [|split]]]; eauto with json_keys.
    exists sm. split; [|done]. by rewrite !setdefault_other, put_other.
Qed.

Lemma ensure_defaults_some N card payload data :
  _ensure_defaults N card payload = Some data ->
  exists fs, data = JObj fs /\ payload_ensured fs.
Proof.
  unfold _ensure_defaults. destruct payload as [| | | | | |fs0]; try done.
  set (fs6 := (obj_setdefault "users" _ _).2).
  destruct (obj_setdefault "meta" (JObj []) fs6) as [meta0 fs7] eqn:Em.
  destruct meta0 as [| | | | | |mt]; try done.
  destruct (ensure_meta card mt) as [mt'|] eqn:Emt; [|done].
  set (fs8 := obj_put "meta" (JObj mt') fs7).
  destruct (obj_setdefault "subscriptions" (JObj []) fs8) as [subs0 fs9] eqn:Es.
  destruct subs0 as [| | | | | |sb]; try done.
  intros [= <-]. eexists. split; [done|].
  assert (forall k, is_Some (obj_get k fs6) -> is_Some (obj_get k fs9)) as Hk.
  { intros k Hk. assert (fs7 = (obj_setdefault "meta" (JObj []) fs6).2) as -> by (by rewrite Em).
    assert (fs9 = (obj_setdefault "subscriptions" (JObj []) fs8).2) as -> by (by rewrite Es).
    subst fs8. eauto with json_keys. }
  assert (obj_get "meta" fs9 = Some (JObj mt')) as Hm.
  { assert (fs9 = (obj_setdefault "subscriptions" (JObj []) fs8).2) as -> by (by rewrite Es).
    rewrite setdefault_other by done. subst fs8. apply put_same. }
  assert (obj_get "subscriptions" fs9 = Some (JObj sb)) as Hs.
  { unfold obj_setdefault in Es. destruct (obj_get "subscriptions" fs8) eqn:E8;
      injection Es as <- <-; [done|apply put_same]. }
  split; [|split; [|split; [|split; [|split; [|split; [|split]]]]]];
    try (apply put_keeps_some, Hk; subst fs6; eauto 10 with json_keys).
  - exists mt'. split; [by rewrite put_other|]. by apply (ensure_meta_some card mt).
  - exists (obj_setdefault "channels" (JArr []) (obj_setdefault "enabled" (JBool false) sb).2).2.
    split; [apply put_same|]. split; eauto with json_keys.
Qed.

Lemma ensure_meta_fixed card mt : meta_ensured mt -> ensure_meta card mt = Some mt.
Proof.
  intros ((sm & Hsm & Ht & Hmd) & Hs & Hc & Hmc & Hg).
  unfold ensure_meta, ensure_start_message. rewrite Hsm.
  rewrite (obj_setdefault_present "text") by done.
  rewrite (obj_setdefault_present "media") by done.
  rewrite (obj_put_get _ _ _ Hsm).
  rewrite (obj_setdefault_present "subscription_message") by done.
  destruct Hc as [c Hc]. rewrite Hc.
  rewrite (obj_setdefault_present "manager_contact") by done.
  by rewrite (obj_setdefault_present "game_info_message").
Qed.

Lemma ensure_defaults_fixed N card fs :
  payload_ensured fs -> _ensure_defaults N card (JObj fs) = Some (JObj fs).
Proof.
  intros (H1 & H2 & H3 & H4 & H5 & H6 & (mt & Hm & Hmt) & (sb & Hs & He & Hc)).
  unfold _ensure_defaults.
  rewrite (obj_setdefault_present "available_tickets"), (obj_setdefault_present "pending"),
    (obj_setdefault_present "approved"), (obj_setdefault_present "rejected"),
    (obj_setdefault_present "user_tickets"), (obj_setdefault_present "users") by done.
  rewrite (obj_setdefault_get _ _ _ _ Hm), ensure_meta_fixed by done.
  rewrite (obj_put_get _ _ _ Hm), (obj_setdefault_get _ _ _ _ Hs).
  rewrite (obj_setdefault_present "enabled"), (obj_setdefault_present "channels") by done.
  by rewrite (obj_put_get _ _ _ Hs).
Qed.

(** X12: [_ensure_defaults] is idempotent: applied to its own result, with any
    configuration, it changes nothing. *)
Theorem ensure_defaults_idempotent (N N' : Z) (card card' : option string) (payload data : json) :
  _ensure_defaults N card payload = Some data ->
  _ensure_defaults N' card' data = Some data.
Proof.
  intros H. destruct (ensure_defaults_some _ _ _ _ H) as (fs & -> & Hfs).
  by apply ensure_defaults_fixed.
Qed.

Lemma ensure_start_message_other mt m1 k :
  ensure_start_message mt = Some m1 -> k <> "start_message" -> obj_get k m1 = obj_get k mt.
Proof.
  unfold ensure_start_message. intros H Hk.
  destruct (obj_get "start_message" mt) as [[]|]; try discriminate;
    injection H as <-; by rewrite put_other.
Qed.

Lemma ensure_start_message_inner mt m1 sm :
  ensure_start_message mt = Some m1 -> obj_get "start_message" mt = Some (JObj sm) ->
  exists sm', obj_get "start_message" m1 = Some (JObj sm') /\
    forall k v, obj_get k sm = Some v -> obj_get k sm' = Some v.
Proof.
  unfold ensure_start_message. intros H Hsm. rewrite Hsm in H. injection H as <-.
  eexists. split; [apply put_same|]. intros k v Hk. by do 2 apply setdefault_keeps_val.
Qed.

Lemma ensure_meta_other card mt mt' k :
  ensure_meta card mt = Some mt' -> k <> "start_message" ->
  forall v, obj_get k mt = Some v -> obj_get k mt' = Some v.
Proof.
  unfold ensure_meta. destruct (ensure_start_message mt) as [m1|] eqn:E1; [|done].
  intros [= <-] Hk v Hv. rewrite <- (ensure_start_message_other _ _ _ E1 Hk) in Hv.
  apply setdefault_keeps_val, setdefault_keeps_val.
  apply (setdefault_keeps_val k "subscription_message" v (JStr DEFAULT_SUBSCRIPTION_MESSAGE) m1) in Hv.
  destruct (obj_get "card_number" _) eqn:Ec; [done|].
  destruct (String.eqb_spec "card_number" k) as [<-|Hne]; [congruence|].
  by rewrite put_other.
Qed.

Lemma ensure_meta_start card mt mt' :
  ensure_meta card mt = Some mt' ->
  exists m1, ensure_start_message mt = Some m1 /\
    obj_get "start_message" mt' = obj_get "start_message" m1.
Proof.
  unfold ensure_meta. destruct (ensure_start_message mt) as [m1|] eqn:E1; [|done].
  intros [= <-]. exists m1. split; [done|].
  rewrite !setdefault_other by done.
  destruct (obj_get "card_number" _); [|rewrite put_other by done];
    by rewrite setdefault_other.
Qed.

Lemma ensure_defaults_shape N card fs data :
  _ensure_defaults N card (JObj fs) = Some data ->
  exists mt mt' fs7 sb sb' fs9,
    obj_setdefault "meta" (JObj []) (obj_setdefault "users" (JObj [])
      (obj_setdefault "user_tickets" (JObj []) (obj_setdefault "rejected" (JObj [])
        (obj_setdefault "approved" (JObj []) (obj_setdefault "pending" (JObj [])
          (obj_setdefault "available_tickets" (JArr (map JInt (py_range 1 (N + 1)))) fs).2
        ).2).2).2).2).2 = (JObj mt, fs7) /\
    ensure_meta card mt = Some mt' /\
    obj_setdefault "subscriptions" (JObj []) (obj_put "meta" (JObj mt') fs7) = (JObj sb, fs9) /\
    sb' = (obj_setdefault "channels" (JArr []) (obj_setdefault "enabled" (JBool false) sb).2).2 /\
    data = JObj (obj_put "subscriptions" (JObj sb') fs9).
Proof.
  unfold _ensure_defaults.
  destruct (obj_setdefault "meta" _ _) as [[| | | | | |mt] fs7] eqn:Em; try done.
  destruct (ensure_meta card mt) as [mt'|] eqn:Emt; [|done].
  destruct (obj_setdefault "subscriptions" _ _) as [[| | | | | |sb] fs9] eqn:Es; try done.
  intros [= <-]. exists mt, mt', fs7, sb,
    (obj_setdefault "channels" (JArr []) (obj_setdefault "enabled" (JBool false) sb).2).2, fs9.
  done.
Qed.

Lemma setdefault_pair_get k w fs v fs' :
  obj_setdefault k w fs = (v, fs') ->
  fs' = (obj_setdefault k w fs).2 /\ obj_get k fs' = Some v /\
  (forall v0, obj_get k fs = Some v0 -> v = v0).
Proof.
  intros E. split; [by rewrite E|]. unfold obj_setdefault in *.
  destruct (obj_get k fs) eqn:Ek; injection E as <- <-.
  - split; [done|]. by intros ? [=].
  - split; [apply put_same|done].
Qed.

Lemma ensure_defaults_keeps_top N card fs data :
  _ensure_defaults N card (JObj fs) = Some data ->
  exists fs', data = JObj fs' /\
  (forall k v, k <> "meta" -> k <> "subscriptions" ->
     obj_get k fs = Some v -> obj_get k fs' = Some v).
Proof.
  intros H.
  destruct (ensure_defaults_shape _ _ _ _ H) as (mt0 & mt' & fs7 & sb0 & sb' & fs9 & Em & Emt & Es & -> & ->).
  apply setdefault_pair_get in Em as (Efs7 & _ & _).
  apply setdefault_pair_get in Es as (Efs9 & _ & _).
  eexists. split; [done|]. intros k v Hk1 Hk2 Hv.
  rewrite put_other, Efs9, Efs7 by done.
  apply setdefault_keeps_val. rewrite put_other by done.
  apply setdefault_keeps_val. by do 6 apply setdefault_keeps_val.
Qed.

(** X13: [_ensure_defaults] never overwrites a value that is present: top-level
    keys, [meta] keys, [start_message] keys and [subscriptions] keys keep their
    values. *)
Theorem ensure_defaults_keeps_values (N : Z) (card : option string)
    (fs : list (string * json)) (data : json) :
  _ensure_defaults N card (JObj fs) = Some data ->
  exists fs', data = JObj fs' /\
  (forall k v, k <> "meta" -> k <> "subscriptions" ->
     obj_get k fs = Some v -> obj_get k fs' = Some v) /\
  (forall mt, obj_get "meta" fs = Some (JObj mt) ->
     exists mt', obj_get "meta" fs' = Some (JObj mt') /\
     (forall k v, k <> "start_message" -> obj_get k mt = Some v -> obj_get k mt' = Some v) /\
     (forall sm, obj_get "start_message" mt = Some (JObj sm) ->
        exists sm', obj_get "start_message" mt' = Some (JObj sm') /\
        forall k v, obj_get k sm = Some v -> obj_get k sm' = Some v)) /\
  (forall sb, obj_get "subscriptions" fs = Some (JObj sb) ->
     exists sb', obj_get "subscriptions" fs' = Some (JObj sb') /\
     forall k v, obj_get k sb = Some v -> obj_get k sb' = Some v).
Proof.
  intros H.
  destruct (ensure_defaults_shape _ _ _ _ H) as (mt0 & mt' & fs7 & sb0 & sb' & fs9 & Em & Emt & Es & -> & ->).
  set (fs6 := (obj_setdefault "users" _ _).2) in Em.
  apply setdefault_pair_get in Em as (Efs7 & Hm7 & Hm0).
  apply setdefault_pair_get in Es as (Efs9 & Hs9 & Hs0).
  assert (forall k, k <> "meta" -> k <> "subscriptions" -> forall v,
            obj_get k fs = Some v -> obj_get k fs9 = Some v) as Hkeep.
  { intros k Hk1 Hk2 v Hv. rewrite Efs9, Efs7.
    apply setdefault_keeps_val. rewrite put_other by done.
    apply setdefault_keeps_val. subst fs6. by do 6 apply setdefault_keeps_val. }
  assert (obj_get "meta" fs6 = obj_get "meta" fs) as Hm6 by (subst fs6; by rewrite !setdefault_other).
  assert (obj_get "subscriptions" (obj_put "meta" (JObj mt') fs7) = obj_get "subscriptions" fs)
    as Hs8.
  { rewrite put_other, Efs7, setdefault_other by done. subst fs6. by rewrite !setdefault_other. }
  eexists. split; [done|]. split; [|split].
  - intros k v Hk1 Hk2 Hv. rewrite put_other by done. by apply Hkeep.
  - intros mt Hmt. rewrite <- Hm6 in Hmt. apply Hm0 in Hmt. injection Hmt as ->.
    exists mt'. split.
    { rewrite put_other, Efs9, setdefault_other by done. apply put_same. }
    split.
    + intros k v Hk Hv. by apply (ensure_meta_other card mt mt' k Emt Hk).
    + intros sm Hsm. destruct (ensure_meta_start _ _ _ Emt) as (m1 & E1 & ->).
      by apply (ensure_start_message_inner mt m1 sm).
  - intros sb Hsb. rewrite <- Hs8 in Hsb. apply Hs0 in Hsb. injection Hsb as ->.
    eexists. split; [apply put_same|]. intros k v Hv. by do 2 apply setdefault_keeps_val.
Qed.

Lemma setdefault_fst k w fs v fs' :
  obj_setdefault k w fs = (v, fs') -> v = default w (obj_get k fs).
Proof. unfold obj_setdefault. destruct (obj_get k fs); by intros [= <- _]. Qed.

Lemma ensure_meta_none card mt :
  ensure_meta card mt = None <->
  match obj_get "start_message" mt with Some j => is_obj j = false | None => False end.
Proof.
  unfold ensure_meta, ensure_start_message.
  destruct (obj_get "start_message" mt) as [[]|]; simpl; split; done.
Qed.

(** X14: [_ensure_defaults] raises exactly when the payload is not a dictionary,
    [meta] is present and not a dictionary, its [start_message] is present and
    not a dictionary, or [subscriptions] is present and not a dictionary. *)
Theorem ensure_defaults_raises (N : Z) (card : option string) (payload : json) :
  _ensure_defaults N card payload = None <->
  match payload with
  | JObj fs =>
      match obj_get "meta" fs with
      | Some (JObj mt) =>
          match obj_get "start_message" mt with Some j => is_obj j = false | None => False end
      | Some _ => True
      | None => False
      end \/
      (exists j, obj_get "subscriptions" fs = Some j /\ is_obj j = false)
  | _ => True
  end.
Proof.
  destruct payload as [| | | | | |fs]; try done. unfold _ensure_defaults.
  set (fs6 := (obj_setdefault "users" _ _).2).
  assert (obj_get "meta" fs6 = obj_get "meta" fs) as Hm6 by (subst fs6; by rewrite !setdefault_other).
  assert (obj_get "subscriptions" fs6 = obj_get "subscriptions" fs) as Hs6
    by (subst fs6; by rewrite !setdefault_other).
  destruct (obj_setdefault "meta" (JObj []) fs6) as [meta0 fs7] eqn:Em.
  pose proof (setdefault_fst _ _ _ _ _ Em) as Hmeta0. rewrite Hm6 in Hmeta0.
  apply setdefault_pair_get in Em as (Efs7 & _ & _).
  assert (obj_get "subscriptions" fs7 = obj_get "subscriptions" fs) as Hs7
    by (rewrite Efs7, setdefault_other; done).
  destruct meta0 as [| | | | | |mt];
    try (subst; destruct (obj_get "meta" fs) as [[]|]; simpl in Hmeta0; try done;
         split; [intros _; by left|done]).
  assert (match obj_get "meta" fs with
          | Some (JObj mt0) =>
              match obj_get "start_message" mt0 with Some j => is_obj j = false | None => False end
          | Some _ => True | None => False end <->
          match obj_get "start_message" mt with Some j => is_obj j = false | None => False end)
    as Hmeq.
  { destruct (obj_get "meta" fs) as [[]|]; simpl in Hmeta0; try done.
    - injection Hmeta0 as ->. done.
    - injection Hmeta0 as ->. simpl. done. }
  rewrite Hmeq, <- (ensure_meta_none card).
  destruct (ensure_meta card mt) as [mt'|] eqn:Emt.
  - destruct (obj_setdefault "subscriptions" (JObj []) (obj_put "meta" (JObj mt') fs7))
      as [subs0 fs9] eqn:Es.
    pose proof (setdefault_fst _ _ _ _ _ Es) as Hsubs0.
    rewrite put_other, Hs7 in Hsubs0 by done.
    destruct subs0 as [| | | | | |sb]; split; intros H; try done.
    + right. destruct (obj_get "subscriptions" fs) as [j|]; simpl in Hsubs0; [|done].
      exists j. by subst.
    + right. destruct (obj_get "subscriptions" fs) as [j|]; simpl in Hsubs0; [|done].
      exists j. by subst.
    + right. destruct (obj_get "subscriptions" fs) as [j|]; simpl in Hsubs0; [|done].
      exists j. by subst.
    + right. destruct (obj_get "subscriptions" fs) as [j|]; simpl in Hsubs0; [|done].
      exists j. by subst.
    + right. destruct (obj_get "subscriptions" fs) as [j|]; simpl in Hsubs0; [|done].
      exists j. by subst.
    + right. destruct (obj_get "subscriptions" fs) as [j|]; simpl in Hsubs0; [|done].
      exists j. by subst.
    + destruct H as [H|(j & Hj & Hoj)]; [discriminate H|]. rewrite Hj in Hsubs0. simpl in Hsubs0.
      by subst.
  - split; [intros _; by left|done].
Qed.

(** X15: after [_ensure_defaults] the data has every top-level, [meta] and
    [subscriptions] key the rest of the code reads. *)
Theorem ensure_defaults_keys (N : Z) (card : option string) (payload data : json) :
  _ensure_defaults N card payload = Some data ->
  exists fs, data = JObj fs /\ payload_ensured fs.
Proof. apply ensure_defaults_some. Qed.

Lemma ensure_defaults_meta N card fs data :
  _ensure_defaults N card (JObj fs) = Some data ->
  exists fs' mt0 mt',
    data = JObj fs' /\ obj_get "meta" fs' = Some (JObj mt') /\
    default (JObj []) (obj_get "meta" fs) = JObj mt0 /\ ensure_meta card mt0 = Some mt'.
Proof.
  intros H.
  destruct (ensure_defaults_shape _ _ _ _ H) as (mt0 & mt' & fs7 & sb0 & sb' & fs9 & Em & Emt & Es & -> & ->).
  pose proof (setdefault_fst _ _ _ _ _ Em) as Hm0. rewrite !setdefault_other in Hm0 by done.
  apply setdefault_pair_get in Es as (Efs9 & _ & _).
  eexists _, mt0, mt'. split; [done|]. split; [|done].
  rewrite put_other, Efs9, setdefault_other by done. apply put_same.
Qed.

(** X16: a missing [start_message] is built from the legacy [start_template]
    (or the default template) with no media, and a missing [card_number] gets
    the configured default card number (or the empty string). *)
Theorem ensure_defaults_fills_meta (N : Z) (card : option string) (fs : list (string * json))
    (data : json) :
  _ensure_defaults N card (JObj fs) = Some data ->
  let mt0 := match obj_get "meta" fs with Some (JObj mt) => mt | _ => [] end in
  exists fs' mt', data = JObj fs' /\ obj_get "meta" fs' = Some (JObj mt') /\
    (obj_get "start_message" mt0 = None ->
       obj_get "start_message" mt' =
         Some (JObj [("text", default (JStr DEFAULT_START_TEMPLATE) (obj_get "start_template" mt0));
                     ("media", JNull)])) /\
    (obj_get "card_number" mt0 = None ->
       obj_get "card_number" mt' = Some (JStr (default "" card))).
Proof.
  intros H. destruct (ensure_defaults_meta _ _ _ _ H) as (fs' & mt0 & mt' & -> & Hm' & Hm0 & Emt).
  assert ((match obj_get "meta" fs with Some (JObj mt) => mt | _ => [] end) = mt0) as ->.
  { destruct (obj_get "meta" fs) as [[]|]; simpl in Hm0; try done; by injection Hm0. }
  exists fs', mt'. split; [done|]. split; [done|]. split.
  - intros Hs. destruct (ensure_meta_start _ _ _ Emt) as (m1 & E1 & ->).
    unfold ensure_start_message in E1. rewrite Hs in E1. injection E1 as <-. apply put_same.
  - intros Hc. unfold ensure_meta in Emt.
    destruct (ensure_start_message mt0) as [m1|] eqn:E1; [|done]. injection Emt as <-.
    rewrite !setdefault_other by done.
    assert (obj_get "card_number" m1 = None) as Hc1.
    { rewrite (ensure_start_message_other _ _ _ E1) by done. done. }
    rewrite Hc1. apply put_same.
Qed.













(** X18: a data file without [available_tickets] starts with an empty pool, not
    a fresh 1..N pool. *)
Theorem load_missing_pool (N : Z) (card : option string) (fs : list (string * json))
    (data content : json) :
  obj_get "available_tickets" fs = None ->
  storage_init N card (Some (JObj fs)) = Ok (data, content) ->
  exists fs', data = JObj fs' /\ obj_get "available_tickets" fs' = Some (JArr []).
Proof.
  intros Hav. unfold storage_init, _load. rewrite Hav. cbn [default py_iter py_ints sorted_set map fold_right].
  destruct (_ensure_defaults N card (JObj (obj_put "available_tickets" (JArr []) fs))) as [d|] eqn:Ed; [|done]. intros [= <- _].
  destruct (ensure_defaults_keeps_top _ _ _ _ Ed) as (fs' & -> & Hk).
  exists fs'. split; [done|]. apply Hk; [done|done|]. apply put_same.
Qed.

Lemma py_range_sorted a b : StronglySorted Z.lt (py_range a b).
Proof.
  unfold py_range. generalize 0%nat as k. induction (Z.to_nat (b - a)) as [|n IH]; intros k.
  - constructor.
  - simpl. constructor; [apply IH|].
    apply List.Forall_forall. intros x Hx. apply in_map_iff in Hx as (i & <- & Hi).
    apply in_seq in Hi. lia.
Qed.

Lemma sorted_set_sorted_id l : StronglySorted Z.lt l -> sorted_set l = l.
Proof.
  induction 1 as [|x l Hl IH Hf]; [done|]. unfold sorted_set. simpl.
  fold (sorted_set l). rewrite IH. destruct l as [|y l']; [done|]. simpl.
  inversion Hf as [|? ? Hxy _]. by replace (x <? y) with true by (symmetry; apply Z.ltb_lt; lia).
Qed.

Lemma py_ints_map_JInt l : py_ints (map JInt l) = Ok l.
Proof. induction l as [|z l IH]; simpl; [done|]. by rewrite IH. Qed.

Lemma load_sorted_pool fs l :
  obj_get "available_tickets" fs = Some (JArr (map JInt l)) -> StronglySorted Z.lt l ->
  _load (JObj fs) = Ok (JObj fs).
Proof.
  intros H Hl. unfold _load. rewrite H. simpl.
  rewrite py_ints_map_JInt, (sorted_set_sorted_id l Hl), (obj_put_get _ _ _ H).
  reflexivity.
Qed.

Lemma load_default_payload N : _load (default_payload N) = Ok (default_payload N).
Proof. apply (load_sorted_pool _ (py_range 1 (N + 1))); [reflexivity|apply py_range_sorted]. Qed.

(** X19: restarting on the file written at first start gives the same [_data]
    as the first start. *)
Theorem storage_init_restart (N : Z) (card : option string) :
  exists data,
    storage_init N card None = Ok (data, default_payload N) /\
    storage_init N card (Some (default_payload N)) = Ok (data, default_payload N).
Proof.
  unfold storage_init. rewrite load_default_payload. eexists. split; reflexivity.
Qed.

(* ------------------------------------------------------------------ *)
(** ** Witnesses: the hypotheses of the properties above hold on concrete stores and payloads *)

Lemma remove_missing_channel_witness :
  has_channel "@news" (sub_channels (s_subscriptions (initial_store 3 None))) = false /\
  remove_subscription_channel "@news" (initial_store 3 None) = (false, initial_store 3 None).
Proof. split; [reflexivity|apply remove_missing_channel; reflexivity]. Defined.

Lemma add_remove_channel_witness :
  has_channel "@news" (sub_channels (s_subscriptions (initial_store 3 None))) = false /\
  remove_subscription_channel "@news"
    (add_subscription_channel "@news" "News" (Some "https://t.me/news") (initial_store 3 None)) =
    (true, initial_store 3 None).
Proof. split; [reflexivity|apply add_remove_channel; reflexivity]. Defined.

(** The argument below starts with a no-break space (U+00A0). *)
Lemma card_number_roundtrip_witness :
  get_card_number (set_card_number
    (String (ascii_of_nat 194) (String (ascii_of_nat 160) " 8600 1234 ")) (initial_store 3 None))
    = "8600 1234" /\
  let r := list_ascii_of_string (get_card_number (set_card_number
             (String (ascii_of_nat 194) (String (ascii_of_nat 160) " 8600 1234 "))
             (initial_store 3 None))) in
  exists pre post,
    list_ascii_of_string (String (ascii_of_nat 194) (String (ascii_of_nat 160) " 8600 1234 "))
      = pre ++ r ++ post /\
    py_spaces pre /\ py_spaces post /\ edge_trimmed r /\
    (py_spaces (list_ascii_of_string
       (String (ascii_of_nat 194) (String (ascii_of_nat 160) " 8600 1234 "))) ->
       get_card_number (set_card_number
         (String (ascii_of_nat 194) (String (ascii_of_nat 160) " 8600 1234 "))
         (initial_store 3 None)) = "").
Proof.
  split; [vm_compute; reflexivity|].
  exact (card_number_roundtrip
           (String (ascii_of_nat 194) (String (ascii_of_nat 160) " 8600 1234 "))
           (initial_store 3 None)).
Defined.

(** The argument below is an ideographic space (U+3000). *)
Lemma manager_contact_roundtrip_witness :
  get_manager_contact (set_manager_contact
    (String (ascii_of_nat 227) (String (ascii_of_nat 128) (String (ascii_of_nat 128) "")))
    (initial_store 3 None)) = "@menejer_1w" /\
  let c := get_manager_contact (set_manager_contact
             (String (ascii_of_nat 227) (String (ascii_of_nat 128) (String (ascii_of_nat 128) "")))
             (initial_store 3 None)) in
  c <> "" /\
  (py_spaces (list_ascii_of_string
     (String (ascii_of_nat 227) (String (ascii_of_nat 128) (String (ascii_of_nat 128) "")))) ->
     c = "@menejer_1w") /\
  (~ py_spaces (list_ascii_of_string
       (String (ascii_of_nat 227) (String (ascii_of_nat 128) (String (ascii_of_nat 128) "")))) ->
     c = py_strip
           (String (ascii_of_nat 227) (String (ascii_of_nat 128) (String (ascii_of_nat 128) ""))) /\
     exists pre post,
       list_ascii_of_string
         (String (ascii_of_nat 227) (String (ascii_of_nat 128) (String (ascii_of_nat 128) "")))
         = pre ++ list_ascii_of_string c ++ post /\
       py_spaces pre /\ py_spaces post /\ edge_trimmed (list_ascii_of_string c)).
Proof.
  split; [vm_compute; reflexivity|].
  exact (manager_contact_roundtrip
           (String (ascii_of_nat 227) (String (ascii_of_nat 128) (String (ascii_of_nat 128) "")))
           (initial_store 3 None)).
Defined.

Lemma stats_counts_consistent_witness :
  0 <= 3 /\ reachable nonneg_create 3 None Scenario.s3 /\
  st_tickets_sold (get_detailed_stats 3 Scenario.s3) = su_sold (get_summary 3 Scenario.s3) /\
  su_sold (get_summary 3 Scenario.s3) =
    Z.of_nat (length (approved_tickets (approved Scenario.s3))) /\
  0 <= su_sold (get_summary 3 Scenario.s3) <= 3 /\
  st_total_purchases (get_detailed_stats 3 Scenario.s3) =
    st_approved_count (get_detailed_stats 3 Scenario.s3).
Proof.
  split; [lia|]. split; [apply scenario_s3_reachable|].
  apply (stats_counts_consistent nonneg_create 3 None Scenario.s3); [lia|apply scenario_s3_reachable].
Defined.

Lemma get_user_tickets_spec_witness :
  reachable nonneg_create 3 None Scenario.s3 /\
  StronglySorted Z.lt (get_user_tickets 7 Scenario.s3) /\
  (forall t, t ∈ get_user_tickets 7 Scenario.s3 <->
     exists k p, approved Scenario.s3 !! k = Some p /\ p_user_id p = 7 /\
                 t ∈ default [] (p_tickets p)).
Proof.
  split; [apply scenario_s3_reachable|].
  apply (get_user_tickets_spec nonneg_create 3 None Scenario.s3 7), scenario_s3_reachable.
Defined.

Lemma ensure_defaults_idempotent_witness :
  exists data, _ensure_defaults 3 None (JObj [("available_tickets", JArr [JInt 2; JInt 1]);
          ("meta", JObj [("start_template", JStr "Salom!")])]) = Some data /\
               _ensure_defaults 5 (Some "8600") data = Some data.
Proof.
  eexists. split; [reflexivity|].
  apply (ensure_defaults_idempotent 3 5 None (Some "8600") (JObj [("available_tickets", JArr [JInt 2; JInt 1]);
          ("meta", JObj [("start_template", JStr "Salom!")])])). reflexivity.
Defined.

Lemma ensure_defaults_keeps_values_witness :
  exists data,
  _ensure_defaults 3 None (JObj [("pending", JObj [("p1", JNull)]);
                                ("meta", JObj [("manager_contact", JStr "@boss")]);
                                ("subscriptions", JObj [("enabled", JBool true)])]) = Some data /\
  exists fs', data = JObj fs' /\
  (forall k v, k <> "meta" -> k <> "subscriptions" ->
     obj_get k [("pending", JObj [("p1", JNull)]);
                ("meta", JObj [("manager_contact", JStr "@boss")]);
                ("subscriptions", JObj [("enabled", JBool true)])] = Some v ->
     obj_get k fs' = Some v) /\
  (forall mt, obj_get "meta" [("pending", JObj [("p1", JNull)]);
                              ("meta", JObj [("manager_contact", JStr "@boss")]);
                              ("subscriptions", JObj [("enabled", JBool true)])] = Some (JObj mt) ->
     exists mt', obj_get "meta" fs' = Some (JObj mt') /\
     (forall k v, k <> "start_message" -> obj_get k mt = Some v -> obj_get k mt' = Some v) /\
     (forall sm, obj_get "start_message" mt = Some (JObj sm) ->
        exists sm', obj_get "start_message" mt' = Some (JObj sm') /\
        forall k v, obj_get k sm = Some v -> obj_get k sm' = Some v)) /\
  (forall sb, obj_get "subscriptions" [("pending", JObj [("p1", JNull)]);
                                       ("meta", JObj [("manager_contact", JStr "@boss")]);
                                       ("subscriptions", JObj [("enabled", JBool true)])] =
              Some (JObj sb) ->
     exists sb', obj_get "subscriptions" fs' = Some (JObj sb') /\
     forall k v, obj_get k sb = Some v -> obj_get k sb' = Some v).
Proof.
  eexists. split; [reflexivity|].
  apply (ensure_defaults_keeps_values 3 None). reflexivity.
Defined.

Lemma ensure_defaults_keys_witness :
  exists data, _ensure_defaults 3 (Some "8600") (JObj []) = Some data /\
  exists fs, data = JObj fs /\ payload_ensured fs.
Proof.
  eexists. split; [reflexivity|].
  apply (ensure_defaults_keys 3 (Some "8600") (JObj [])). reflexivity.
Defined.

Lemma ensure_defaults_fills_meta_witness :
  exists data,
  _ensure_defaults 3 (Some "8600") (JObj [("meta", JObj [("start_template", JStr "Salom!")])]) =
    Some data /\
  exists fs' mt', data = JObj fs' /\ obj_get "meta" fs' = Some (JObj mt') /\
    (obj_get "start_message" [("start_template", JStr "Salom!")] = None ->
       obj_get "start_message" mt' =
         Some (JObj [("text", default (JStr DEFAULT_START_TEMPLATE)
                                (obj_get "start_template" [("start_template", JStr "Salom!")]));
                     ("media", JNull)])) /\
    (obj_get "card_number" [("start_template", JStr "Salom!")] = None ->
       obj_get "card_number" mt' = Some (JStr (default "" (Some "8600")))).
Proof.
  eexists. split; [reflexivity|].
  apply (ensure_defaults_fills_meta 3 (Some "8600")
           [("meta", JObj [("start_template", JStr "Salom!")])]). reflexivity.
Defined.



Lemma load_missing_pool_witness :
  exists data content,
  storage_init 3 None (Some (JObj [("users", JObj [])])) = Ok (data, content) /\
  exists fs', data = JObj fs' /\ obj_get "available_tickets" fs' = Some (JArr []).
Proof.
  eexists _, _. split; [reflexivity|].
  eapply (load_missing_pool 3 None [("users", JObj [])]); reflexivity.
Defined.
